(** * HMA service: candle normaliser, Hull Moving Average engine and cache

    A shallow embedding of [hmaService.js] (the candle normaliser, the
    55-period Hull Moving Average computation and the per-symbol candle
    cache), together with the properties its specification states.

    JavaScript numbers that take part in price arithmetic are IEEE-754
    binary64 values and are modelled by Rocq's primitive floats, whose
    operations are the same binary64 operations.  Integer-valued quantities
    (array indices, loop counters, epoch timestamps, the millisecond clock)
    are modelled in [Z]. *)

From Stdlib Require Import ZArith Lia Sorted Ascii.
From Stdlib Require PrimFloat Uint63.
From stdpp Require Import gmap strings list fin_maps pretty.

Local Open Scope Z_scope.

(** ** JavaScript numbers *)

Module JS.

Definition num : Set := PrimFloat.float.

(** The binary64 value of an integer; exact below [2^53] in magnitude,
    which covers every loop counter and weight of the service. *)
Definition of_Z (z : Z) : num :=
  if z <? 0 then PrimFloat.opp (PrimFloat.of_uint63 (Uint63.of_Z (- z)))
  else PrimFloat.of_uint63 (Uint63.of_Z z).

Definition zero : num := PrimFloat.zero.
Definition two : num := PrimFloat.two.

(** [ToBoolean] on a number: [0], [-0] and [NaN] are falsy. *)
Definition truthy (x : num) : bool :=
  negb (PrimFloat.is_zero x || PrimFloat.is_nan x).

(** [x !== 0] *)
Definition nonzero (x : num) : bool := negb (PrimFloat.eqb x zero).

End JS.

Declare Scope js_scope.
Delimit Scope js_scope with js.
Notation "x + y" := (PrimFloat.add x y) : js_scope.
Notation "x - y" := (PrimFloat.sub x y) : js_scope.
Notation "x * y" := (PrimFloat.mul x y) : js_scope.
Notation "x / y" := (PrimFloat.div x y) : js_scope.

(** ** Exceptions *)

Inductive Error : Type :=
  | TypeError
      (* a property read or write on [undefined] *)
  | InsufficientData (need : Z)
      (* "Insufficient data. Need at least N candles for HMA-N" *)
  | NoAuthToken
      (* "No valid authentication token found" *)
  | ApiError (message : option string)
      (* response.data.message || "Failed to fetch historical data" *)
  | NetworkError (reason : string)
      (* a rejection of the HTTP request itself *)
  | NoHistoricalData (symbol : string)
      (* "No historical data available for SYMBOL" *)
  | InsufficientCandles (need got : Z).
      (* "Insufficient data for HMA calculation. Need N candles, got M" *)

Definition Exc (A : Type) : Type := Error + A.

Definition ret {A} (a : A) : Exc A := inr a.
Definition throw {A} (e : Error) : Exc A := inl e.
Definition bind {A B} (m : Exc A) (k : A → Exc B) : Exc B :=
  match m with
  | inl e => inl e
  | inr a => k a
  end.

Notation "'let*' p := m 'in' k" := (bind m (fun p => k))
  (at level 10, p pattern, m at level 100, k at level 200).

(** [l[z]] for a JavaScript index [z]; [None] is [undefined]. *)
Definition at_index {A} (l : list A) (z : Z) : option A :=
  if z <? 0 then None else l !! Z.to_nat z.

(** [l[z].field]: reading a property of [undefined] throws. *)
Definition member {A} (l : list A) (z : Z) : Exc A :=
  match at_index l z with
  | Some a => ret a
  | None => throw TypeError
  end.

(** ** Data model *)

(** The [hma] field of a point is a number, or [null] in cached candles. *)
Inductive HmaVal : Set :=
  | Null
  | Num (x : JS.num).

Record Candle : Set := mkCandle {
  timestamp : Z;                (* epoch seconds *)
  date : option Z;              (* Date time value in ms; None = Invalid Date *)
  totalMinutes : option Z;      (* hours * 60 + minutes; None = NaN *)
  open : JS.num;
  high : JS.num;
  low : JS.num;
  close : JS.num;
  volume : Z
}.

Record HMAPoint : Set := mkPoint {
  p_timestamp : Z;
  p_close : JS.num;
  p_hma : HmaVal
}.

Record HMAResult : Set := mkResult {
  period : Z;
  data : list HMAPoint;
  currentHMA : HmaVal;
  lastUpdate : Z
}.

(** ** HMA constants *)

Definition HMA_PERIOD : Z := 55.
Definition REQUIRED_CANDLES : Z := 60.
Definition MARKET_START_MINUTES : Z := 555.
Definition MARKET_END_MINUTES : Z := 930.

(** ** Weighted moving averages *)

(** One round of
    [weight = period - i; wma += data[index - i].close * weight;
     weightSum += weight]. *)
Definition wma_step (data : list HMAPoint) (index period : Z)
    (acc : Exc (JS.num * JS.num)) (i : Z) : Exc (JS.num * JS.num) :=
  let* (wma, weightSum) := acc in
  let weight := JS.of_Z (period - i) in
  let* p := member data (index - i) in
  ret ((wma + p_close p * weight)%js, (weightSum + weight)%js).

(** [for (let i = 0; i < period; i++) { ... }] from [wma = 0, weightSum = 0]. *)
Definition wma_loop (data : list HMAPoint) (index period : Z)
    : Exc (JS.num * JS.num) :=
  foldl (wma_step data index period) (ret (JS.zero, JS.zero)) (seqZ 0 period).

Definition calculateWMA (data : list HMAPoint) (index period : Z) : Exc JS.num :=
  if index <? period - 1 then ret JS.zero
  else
    let* (wma, weightSum) := wma_loop data index period in
    ret (wma / weightSum)%js.

(** One round of the final smoothing loop of [calculateHMAForPoint]. *)
Definition final_step (data : list HMAPoint) (index period halfPeriod sqrtPeriod : Z)
    (acc : Exc (JS.num * JS.num)) (i : Z) : Exc (JS.num * JS.num) :=
  let* (finalHma, weightSum3) := acc in
  let pos := index - i in
  let rawPos := pos - (period - 1) in
  if rawPos <? 0 then ret (finalHma, weightSum3)
  else
    let* w1 := calculateWMA data pos halfPeriod in
    let* w2 := calculateWMA data pos period in
    let rawValue := (JS.two * w1 - w2)%js in
    let weight := JS.of_Z (sqrtPeriod - i) in
    ret ((finalHma + rawValue * weight)%js, (weightSum3 + weight)%js).

Definition calculateHMAForPoint (data : list HMAPoint) (index period : Z)
    : Exc JS.num :=
  if index <? period - 1 then ret JS.zero
  else
    let halfPeriod := period / 2 in
    let sqrtPeriod := Z.sqrt period in
    let* (wma1, weightSum1) := wma_loop data index halfPeriod in
    let wma1 := (wma1 / weightSum1)%js in
    let* (wma2, weightSum2) := wma_loop data index period in
    let wma2 := (wma2 / weightSum2)%js in
    let rawHma := (JS.two * wma1 - wma2)%js in
    if index <? period + sqrtPeriod - 2 then ret rawHma
    else
      let* (finalHma, weightSum3) :=
        foldl (final_step data index period halfPeriod sqrtPeriod)
              (ret (JS.zero, JS.zero)) (seqZ 0 sqrtPeriod) in
      ret (finalHma / weightSum3)%js.

(** [data[i].hma = v] *)
Definition set_hma (data : list HMAPoint) (i : Z) (v : JS.num) : Exc (list HMAPoint) :=
  let* p := member data i in
  ret (<[Z.to_nat i := mkPoint (p_timestamp p) (p_close p) (Num v)]> data).

Definition hma_step (acc : Exc (list HMAPoint)) (i : Z) : Exc (list HMAPoint) :=
  let* hmaData := acc in
  let* v := calculateHMAForPoint hmaData i HMA_PERIOD in
  set_hma hmaData i v.

(** [x?.hma || 0] *)
Definition hma_or_zero (x : option HMAPoint) : HmaVal :=
  match x with
  | Some (mkPoint _ _ (Num v)) => if JS.truthy v then Num v else Num JS.zero
  | _ => Num JS.zero
  end.

Definition to_point (c : Candle) : HMAPoint :=
  mkPoint (timestamp c) (close c) (Num JS.zero).

(** [now] is the reading of [new Date()] taken for [lastUpdate]. *)
Definition calculateHMAFromCandles (now : Z) (candles : list Candle) : Exc HMAResult :=
  let len := Z.of_nat (length candles) in
  if len <? HMA_PERIOD then throw (InsufficientData HMA_PERIOD)
  else
    let hmaData := map to_point candles in
    let* hmaData :=
      foldl hma_step (ret hmaData)
            (seqZ (HMA_PERIOD - 1) (len - (HMA_PERIOD - 1))) in
    let currentHMA := hma_or_zero (at_index hmaData (len - 1)) in
    ret (mkResult HMA_PERIOD hmaData currentHMA now).

(** ** The HMA series as the specification words it

    These definitions follow the specification's sentences, not the code:
    [WMA series idx n] is the weighted average of the series at
    [idx, idx-1, ..., idx-n+1] with weights [n, n-1, ..., 1], divided by
    [n*(n+1)/2]; [rawHMA] is [2*WMA(27) - WMA(55)]; the smoothed value is the
    7-point [WMA] of [rawHMA].  Sums are accumulated from [0] in the order
    the terms are listed, in binary64 arithmetic. *)

Module Spec.

Definition weighted_sum (series : Z → JS.num) (idx n : Z) : JS.num :=
  foldl (fun acc j => (acc + series (idx - j)%Z * JS.of_Z (n - j)%Z)%js)
        JS.zero (seqZ 0 n).

Definition WMA (series : Z → JS.num) (idx n : Z) : JS.num :=
  (weighted_sum series idx n / JS.of_Z (n * (n + 1) / 2)%Z)%js.

Definition rawHMA (closes : Z → JS.num) (i : Z) : JS.num :=
  (JS.two * WMA closes i 27 - WMA closes i 55)%js.

Definition smoothedHMA (closes : Z → JS.num) (i : Z) : JS.num :=
  WMA (rawHMA closes) i 7.

Definition hma (closes : Z → JS.num) (i : Z) : JS.num :=
  if i <? 54 then JS.zero
  else if i <? 60 then rawHMA closes i
  else smoothedHMA closes i.

End Spec.

(** The close of candle [k], as a series over all indices. *)
Definition closes_of (candles : list Candle) (k : Z) : JS.num :=
  match at_index candles k with
  | Some c => close c
  | None => PrimFloat.nan
  end.

Definition point_closes (data : list HMAPoint) (k : Z) : JS.num :=
  match at_index data k with
  | Some p => p_close p
  | None => PrimFloat.nan
  end.

(** The sum of the weights as the loops accumulate it. *)
Definition weight_total (n : Z) : JS.num :=
  foldl (fun acc j => (acc + JS.of_Z (n - j)%Z)%js) JS.zero (seqZ 0 n).

(** The point array once the loop of [calculateHMAFromCandles] has filled
    the indices [54 .. k-1]. *)
Definition hma_filled (candles : list Candle) (k : Z) : list HMAPoint :=
  imap (fun i c =>
          mkPoint (timestamp c) (close c)
            (Num (if (54 <=? Z.of_nat i) && (Z.of_nat i <? k)
                  then Spec.hma (closes_of candles) (Z.of_nat i)
                  else JS.zero)))
       candles.

(** ** Candle normaliser *)

(** A raw broker record [[ts, open, high, low, close, volume]]. *)
Record Raw : Set := mkRaw {
  r_ts : Z;
  r_open : JS.num;
  r_high : JS.num;
  r_low : JS.num;
  r_close : JS.num;
  r_volume : Z
}.

(** A [Date] is its time value in milliseconds since the epoch, or
    [None] for an Invalid Date ([TimeClip] rejects values beyond 8.64e15). *)
Definition maxTimeValue : Z := 8640000000000000.

Definition newDate (ms : Z) : option Z :=
  if Z.abs ms <=? maxTimeValue then Some ms else None.

Section Normaliser.

(** The host's local time zone adjustment: the milliseconds to add to the
    UTC time value [t] to obtain local time at that instant. *)
Variable localTZA : Z → Z.

(** [date.getHours()] and [date.getMinutes()]; [None] is [NaN]. *)
Definition getHours (d : option Z) : option Z :=
  match d with
  | Some t => Some (((t + localTZA t) / 3600000) mod 24)
  | None => None
  end.

Definition getMinutes (d : option Z) : option Z :=
  match d with
  | Some t => Some (((t + localTZA t) / 60000) mod 60)
  | None => None
  end.

Definition convert (candle : Raw) : Candle :=
  let timestamp := r_ts candle in
  let date := newDate (timestamp * 1000) in
  let hours := getHours date in
  let minutes := getMinutes date in
  let totalMinutes :=
    match hours, minutes with
    | Some h, Some m => Some (h * 60 + m)
    | _, _ => None
    end in
  mkCandle timestamp date totalMinutes
    (r_open candle) (r_high candle) (r_low candle) (r_close candle)
    (r_volume candle).

(** [totalMinutes >= MARKET_START_MINUTES && totalMinutes <= MARKET_END_MINUTES];
    both comparisons are false on [NaN]. *)
Definition in_trading_hours (candle : Candle) : bool :=
  match totalMinutes candle with
  | Some m => (MARKET_START_MINUTES <=? m) && (m <=? MARKET_END_MINUTES)
  | None => false
  end.

Definition convertAndFilterTradingHoursCandles (historicalData : list Raw)
    : list Candle :=
  List.filter in_trading_hours (map convert historicalData).

End Normaliser.

(** The tuple a candle was converted from. *)
Definition to_raw (c : Candle) : Raw :=
  mkRaw (timestamp c) (open c) (high c) (low c) (close c) (volume c).

(** The session window as the specification words it: the local wall-clock
    minute of day, [hour*60 + minute], of an epoch-seconds timestamp lies in
    [[555, 930]]. *)
Definition minuteOfDay (localTZA : Z → Z) (ts : Z) : option Z :=
  match newDate (ts * 1000) with
  | Some t =>
      let hour := ((t + localTZA t) / 3600000) mod 24 in
      let minute := ((t + localTZA t) / 60000) mod 60 in
      Some (hour * 60 + minute)
  | None => None
  end.

Definition in_session (localTZA : Z → Z) (ts : Z) : Prop :=
  ∃ m, minuteOfDay localTZA ts = Some m ∧ 555 ≤ m ≤ 930.

Definition in_sessionb (localTZA : Z → Z) (ts : Z) : bool :=
  match minuteOfDay localTZA ts with
  | Some m => (555 <=? m) && (m <=? 930)
  | None => false
  end.

(** ** The candle cache and the effects of the service *)

Record CachedCandle : Set := mkCached {
  cc_candle : Candle;
  cc_hma : HmaVal
}.

Record CacheEntry : Set := mkEntry {
  candles : list CachedCandle;
  e_lastUpdate : Z;
  e_symbol : string;
  isLiveMonitoring : bool
}.

(** What the service does besides computing: console lines, the call of
    the history fetch and the outgoing HTTP request. *)
Inductive Event : Set :=
  | LogRequest (symbol : string)          (* "Fetching HMA for symbol: S" *)
  | LogCacheHit (symbol : string)         (* "Using cached HMA data for S" *)
  | LogRange                              (* "Fetching data from A to B" *)
  | FetchHistory (symbol resolution : string) (accessToken : option string)
                                          (* [fetchHistoricalData] is called *)
  | LogHistory (symbol : string)          (* "Fetching historical data for S" *)
  | HttpGet (symbol resolution : string) (authorization : string)
  | LogHistoryError (symbol : string) (e : Error)
  | LogFetched (n : Z) (symbol : string)  (* "Fetched N candles for S" *)
  | LogDone (symbol : string) (currentHMA : HmaVal)
  | LogError (symbol : string) (e : Error)
  | LogCleared (symbol : string).         (* "Cleared cache for S" *)

(** What the GET request settles to.  The candles of a response are
    modelled as well-formed tuples; the source does not validate them, and
    a response with, say, a [null] among its candles is not represented. *)
Inductive HttpOutcome : Set :=
  | HttpRejected (reason : string)
  | HttpResponse (s : string) (candles : option (list Raw)) (message : option string).

(** The surroundings of one call of [fetchAndCalculateHMA]: the readings of
    [new Date()] and the outcome of the GET request, should it be sent.
    (The request's date range is formatted from two further clock readings
    and is only passed on to the broker; it is not modelled.) *)
Record World : Set := mkWorld {
  now_read : Z;       (* [now], ms, at the cache check *)
  http : HttpOutcome;
  now_compute : Z;    (* [lastUpdate] of the computed result *)
  now_store : Z       (* [lastUpdate] of the cache entry *)
}.

Record St : Type := mkSt {
  candleCache : gmap string CacheEntry;
  trace : list Event
}.

(** State (cache and trace) with exceptions. *)
Definition M (A : Type) : Type := St → Exc A * St.

Definition pure {A} (a : A) : M A := fun st => (inr a, st).
Definition raise {A} (e : Error) : M A := fun st => (inl e, st).
Definition lift {A} (x : Exc A) : M A := fun st => (x, st).
Definition and_then {A B} (m : M A) (k : A → M B) : M B :=
  fun st =>
    match m st with
    | (inl e, st') => (inl e, st')
    | (inr a, st') => k a st'
    end.
Definition try_catch {A} (m : M A) (handler : Error → M A) : M A :=
  fun st =>
    match m st with
    | (inl e, st') => handler e st'
    | (inr a, st') => (inr a, st')
    end.
Definition log (ev : Event) : M unit :=
  fun st => (inr tt, mkSt (candleCache st) (trace st ++ [ev])).
Definition cache_get (symbol : string) : M (option CacheEntry) :=
  fun st => (inr (candleCache st !! symbol), st).
Definition cache_set (symbol : string) (e : CacheEntry) : M unit :=
  fun st => (inr tt, mkSt (<[symbol := e]> (candleCache st)) (trace st)).
Definition cache_delete (symbol : string) : M unit :=
  fun st => (inr tt, mkSt (delete symbol (candleCache st)) (trace st)).

Notation "'let!' p := m 'in' k" := (and_then m (fun p => k))
  (at level 10, p pattern, m at level 100, k at level 200).
Notation "m ;; k" := (and_then m (fun _ => k))
  (at level 100, k at level 200, right associativity).

(** [ToBoolean] on a string: only the empty string is falsy. *)
Definition truthy_string (s : string) : bool :=
  match s with
  | EmptyString => false
  | _ => true
  end.

Definition fetchHistoricalData (w : World) (symbol resolution : string)
    (accessToken : option string) : M (list Raw) :=
  log (FetchHistory symbol resolution accessToken) ;;
  try_catch
    (match accessToken with
     | Some token =>
         if truthy_string token then
           log (LogHistory symbol) ;;
           log (HttpGet symbol resolution token) ;;
           match http w with
           | HttpRejected reason => raise (NetworkError reason)
           | HttpResponse s candles message =>
               match String.eqb s "ok", candles with
               | true, Some cs => pure cs
               | _, _ =>
                   if String.eqb s "no_data" then pure []
                   else raise (ApiError message)
               end
           end
         else raise NoAuthToken
     | None => raise NoAuthToken
     end)
    (fun error => log (LogHistoryError symbol error) ;; raise error).

(** The cache test of [fetchAndCalculateHMA]:
    [cached && cached.candles.length >= REQUIRED_CANDLES &&
     (now.getTime() - cached.lastUpdate.getTime()) < 5 * 60 * 1000]. *)
Definition fresh (cached : option CacheEntry) (now : Z) : bool :=
  match cached with
  | Some c =>
      (REQUIRED_CANDLES <=? Z.of_nat (length (candles c)))
      && (now - e_lastUpdate c <? 5 * 60 * 1000)
  | None => false
  end.

Definition cached_point (c : CachedCandle) : HMAPoint :=
  mkPoint (timestamp (cc_candle c)) (close (cc_candle c)) (cc_hma c).

(** The result built from a cache entry. *)
Definition cached_result (c : CacheEntry) : Exc HMAResult :=
  let n := Z.of_nat (length (candles c)) in
  let* last := member (candles c) (n - 1) in
  ret (mkResult HMA_PERIOD (map cached_point (candles c))
         (cc_hma last) (e_lastUpdate c)).

(** [candles.map((candle, index) => ({...candle,
      hma: index >= HMA_PERIOD - 1 ? hmaConfig.data[index].hma : null}))],
    from [index] on. *)
Fixpoint with_hma (hmaData : list HMAPoint) (index : Z) (cs : list Candle)
    : Exc (list CachedCandle) :=
  match cs with
  | [] => ret []
  | candle :: rest =>
      let* h :=
        (if HMA_PERIOD - 1 <=? index
         then let* p := member hmaData index in ret (p_hma p)
         else ret Null) in
      let* tl := with_hma hmaData (index + 1) rest in
      ret (mkCached candle h :: tl)
  end.

Section Service.

Variable localTZA : Z → Z.

(** The path taken when the cache does not answer. *)
Definition fetch_and_compute (w : World) (symbol : string)
    (accessToken : option string) : M HMAResult :=
  log LogRange ;;
  let! historicalData := fetchHistoricalData w symbol "5" accessToken in
  if Z.of_nat (length historicalData) =? 0 then raise (NoHistoricalData symbol)
  else
    log (LogFetched (Z.of_nat (length historicalData)) symbol) ;;
    let candles := convertAndFilterTradingHoursCandles localTZA historicalData in
    if Z.of_nat (length candles) <? REQUIRED_CANDLES then
      raise (InsufficientCandles REQUIRED_CANDLES (Z.of_nat (length candles)))
    else
      let! hmaConfig := lift (calculateHMAFromCandles (now_compute w) candles) in
      let! candlesWithHMA := lift (with_hma (data hmaConfig) 0 candles) in
      cache_set symbol (mkEntry candlesWithHMA (now_store w) symbol false) ;;
      log (LogDone symbol (currentHMA hmaConfig)) ;;
      pure hmaConfig.

Definition fetchAndCalculateHMA (w : World) (symbol : string)
    (accessToken : option string) : M HMAResult :=
  log (LogRequest symbol) ;;
  try_catch
    (let! cached := cache_get symbol in
     let now := now_read w in
     match cached with
     | Some c =>
         if fresh cached now then
           log (LogCacheHit symbol) ;; lift (cached_result c)
         else fetch_and_compute w symbol accessToken
     | None => fetch_and_compute w symbol accessToken
     end)
    (fun error => log (LogError symbol error) ;; raise error).

End Service.

Definition clearCache (symbol : string) : M bool :=
  if truthy_string symbol then
    cache_delete symbol ;;
    log (LogCleared symbol) ;;
    pure true
  else pure false.

(** How often a trace calls the history fetch. *)
Definition is_fetch (ev : Event) : bool :=
  match ev with
  | FetchHistory _ _ _ => true
  | _ => false
  end.

Definition fetch_count (events : list Event) : nat :=
  length (List.filter is_fetch events).

Definition is_http (ev : Event) : bool :=
  match ev with
  | HttpGet _ _ _ => true
  | _ => false
  end.

Definition http_count (events : list Event) : nat :=
  length (List.filter is_http events).

(** The events hold exactly one call of the history fetch, the one for
    [symbol], and at most one HTTP request. *)
Definition one_fetch (symbol resolution : string) (accessToken : option string)
    (events : list Event) : Prop :=
  fetch_count events = 1%nat ∧ (http_count events ≤ 1)%nat ∧
  FetchHistory symbol resolution accessToken ∈ events.

(** The cache states the exported operations can produce, starting from
    the empty cache of a fresh module.  ([getCacheStats] only reads.) *)
Inductive reachable (localTZA : Z → Z) : gmap string CacheEntry → Prop :=
  | reach_empty : reachable localTZA ∅
  | reach_fetch cache w symbol accessToken events :
      reachable localTZA cache →
      reachable localTZA
        (candleCache (snd (fetchAndCalculateHMA localTZA w symbol accessToken
                             (mkSt cache events))))
  | reach_clear cache symbol events :
      reachable localTZA cache →
      reachable localTZA
        (candleCache (snd (clearCache symbol (mkSt cache events)))).

(** ** Counting the non-zero points of a series *)

(** [hma !== 0] *)
Definition hma_nonzero (v : HmaVal) : bool :=
  match v with
  | Num x => JS.nonzero x
  | Null => true
  end.

Definition nonzero_count (points : list HMAPoint) : nat :=
  length (List.filter (fun p => hma_nonzero (p_hma p)) points).

(** ** Closed forms used in the proofs *)

(** The result of a successful [calculateHMAFromCandles]. *)
Definition computed_result (now : Z) (cs : list Candle) : HMAResult :=
  let len := Z.of_nat (length cs) in
  mkResult HMA_PERIOD (hma_filled cs len)
    (hma_or_zero (at_index (hma_filled cs len) (len - 1))) now.

(** The candles as [fetchAndCalculateHMA] stores them. *)
Definition stored_from (cs : list Candle) (k : nat) (rest : list Candle)
    : list CachedCandle :=
  imap (fun i c =>
          mkCached c
            (if 54 <=? Z.of_nat (k + i)
             then Num (Spec.hma (closes_of cs) (Z.of_nat (k + i)))
             else Null))
       rest.

Definition stored_candles (cs : list Candle) : list CachedCandle :=
  stored_from cs 0 cs.

(** What the history fetch returns in a world; it depends neither on the
    symbol nor on the cache. *)
Definition history_outcome (w : World) (accessToken : option string)
    : Exc (list Raw) :=
  fst (fetchHistoricalData w "" "5" accessToken (mkSt ∅ [])).

(** What [fetchAndCalculateHMA] stores: at least 60 candles, annotated from
    their own HMA series. *)
Definition entry_ok (e : CacheEntry) : Prop :=
  ∃ cs, 60 ≤ Z.of_nat (length cs) ∧ candles e = stored_candles cs.

(** A state with further events. *)
Definition st_log (st : St) (evs : list Event) : St :=
  mkSt (candleCache st) (trace st ++ evs).

Definition st_put (st : St) (symbol : string) (e : CacheEntry) (evs : list Event) : St :=
  mkSt (<[symbol := e]> (candleCache st)) (trace st ++ evs).

(** ** Sample inputs *)

(** [n] five-minute candles whose closes are [100, 101, 102, ...]. *)
Definition ramp (n : nat) : list Candle :=
  map (fun k => mkCandle (1700000000 + 300 * Z.of_nat k) None None
                  JS.zero JS.zero JS.zero (JS.of_Z (100 + Z.of_nat k)) 0)
      (seq 0 n).

(** Candles with the given closes, five minutes apart. *)
Definition candles_of (closes : list JS.num) : list Candle :=
  imap (fun k c =>
          mkCandle (1704080700 + 300 * Z.of_nat k) None None c c c c 1000)
       closes.

(** 55 candles: 28 closes of 139 followed by 27 closes of 29, for which
    [WMA(54,27) = 29] and [WMA(54,55) = 58]. *)
Definition balanced55 : list Candle :=
  candles_of (replicate 28 (JS.of_Z 139) ++ replicate 27 (JS.of_Z 29)).

Module Literals.
Import PrimFloat.
(** The binary64 value of the literal [1e308]. *)
Definition huge : float := 0x1.1ccf385ebc8ap+1023%float.
End Literals.

(** 55 candles that all close at [1e308]. *)
Definition overflow55 : list Candle :=
  candles_of (replicate 55 Literals.huge).

(** India Standard Time: UTC+05:30 throughout the year. *)
Definition IST : Z → Z := fun _ => 19800000.

(** [n] five-minute bars from 09:15 IST on 1 January 2024, with closes
    [100, 101, 102, ...]. *)
Definition session_bars (n : nat) : list Raw :=
  map (fun k =>
         let c := JS.of_Z (100 + Z.of_nat k) in
         mkRaw (1704080700 + 300 * Z.of_nat k) c c c c 1000)
      (seq 0 n).

(** A world in which the broker answers with 60 in-session bars. *)
Definition world_ok : World :=
  mkWorld 1704100000000
    (HttpResponse "ok" (Some (session_bars 60)) None)
    1704100000005 1704100000007.

Definition st_empty : St := mkSt ∅ [].

(** The state after one successful request for NIFTY. *)
Definition st_nifty : St :=
  snd (fetchAndCalculateHMA IST world_ok "NSE:NIFTY50-INDEX" (Some "token") st_empty).

(** The candles of that request, its result and the entry it stored. *)
Definition candles_nifty : list Candle :=
  convertAndFilterTradingHoursCandles IST (session_bars 60).

Definition result_nifty : HMAResult :=
  computed_result 1704100000005 candles_nifty.

Definition entry_nifty : CacheEntry :=
  mkEntry (stored_candles candles_nifty) 1704100000007 "NSE:NIFTY50-INDEX" false.

(** A read 4 min 59 s after the entry was written, and one 5 min 01 s after. *)
Definition world_4m59 : World :=
  mkWorld (1704100000007 + 299000) (HttpRejected "offline") 0 0.

Definition world_5m01 : World :=
  mkWorld (1704100000007 + 301000) (HttpRejected "offline") 0 0.

(** The same tuple [days] whole days later. *)
Definition shift_days (days : Z) (t : Raw) : Raw :=
  mkRaw (r_ts t + 86400 * days) (r_open t) (r_high t) (r_low t) (r_close t)
    (r_volume t).

(** Why a refresh fails: the fetch failed, or returned nothing, or left
    fewer than 60 candles in session. *)
Definition refresh_error (localTZA : Z → Z) (w : World)
    (accessToken : option string) (symbol : string) (err : Error) : Prop :=
  history_outcome w accessToken = inl err
  ∨ (history_outcome w accessToken = inr [] ∧ err = NoHistoricalData symbol)
  ∨ (∃ raw, history_outcome w accessToken = inr raw ∧ raw ≠ [] ∧
       Z.of_nat (length (convertAndFilterTradingHoursCandles localTZA raw)) < 60 ∧
       err = InsufficientCandles 60
               (Z.of_nat (length (convertAndFilterTradingHoursCandles localTZA raw)))).


(** ** Cache statistics *)

Record CacheStat : Set := mkStat {
  stat_symbol : string;
  candleCount : Z;
  stat_lastUpdate : Z
}.

Definition stat_of (kv : string * CacheEntry) : CacheStat :=
  mkStat (fst kv) (Z.of_nat (length (candles (snd kv)))) (e_lastUpdate (snd kv)).

(** [getCacheStats] pushes one record per entry of the map.  The source
    walks the map in insertion order, which the finite map of this model
    does not record: the list below is the source's list up to order. *)
Definition getCacheStats : M (list CacheStat) :=
  fun st => (inr (stat_of <$> map_to_list (candleCache st)), st).

(** ** Formatting a date for the history request *)

(** What the local-time getters of a valid [Date] return. *)
Record DateParts : Set := mkDateParts {
  d_getFullYear : Z;
  d_getMonth : Z;      (* 0 .. 11 *)
  d_getDate : Z;       (* 1 .. 31 *)
  d_getHours : Z;
  d_getMinutes : Z;
  d_getSeconds : Z
}.

(** [s.padStart(2, '0')] *)
Definition padStart2 (s : string) : string :=
  match String.length s with
  | 0%nat => "00"
  | 1%nat => "0" +:+ s
  | _ => s
  end.

(** [String(n)] on an integer is its decimal numeral. *)
Definition formatDateForAPI (date : DateParts) : string :=
  let year := pretty (d_getFullYear date) in
  let month := padStart2 (pretty (d_getMonth date + 1)) in
  let day := padStart2 (pretty (d_getDate date)) in
  let hours := padStart2 (pretty (d_getHours date)) in
  let minutes := padStart2 (pretty (d_getMinutes date)) in
  let seconds := padStart2 (pretty (d_getSeconds date)) in
  year +:+ "-" +:+ month +:+ "-" +:+ day +:+ " "
    +:+ hours +:+ ":" +:+ minutes +:+ ":" +:+ seconds.

(** The getters' ranges, for a year of four digits. *)
Definition calendar_parts (d : DateParts) : Prop :=
  1000 ≤ d_getFullYear d ≤ 9999 ∧ 0 ≤ d_getMonth d ≤ 11 ∧
  1 ≤ d_getDate d ≤ 31 ∧ 0 ≤ d_getHours d ≤ 23 ∧
  0 ≤ d_getMinutes d ≤ 59 ∧ 0 ≤ d_getSeconds d ≤ 59.

(** A sample of what the getters return: 5 March 2024, 09:07:03. *)
Definition march_5 : DateParts := mkDateParts 2024 2 5 9 7 3.

(** ** The HTTP routes of the HMA service *)

(** The parts of a request the routes read: the [Authorization] header and
    the [symbol] of the query or body, each a string or absent. *)
Record Request : Set := mkRequest {
  authorization : option string;
  symbol_param : option string
}.

Inductive Body : Type :=
  | ErrorMessage (error : string)            (* { error: "..." } *)
  | ErrorOf (e : Error) (fallback : string)  (* { error: e.message || fallback } *)
  | HmaData (r : HMAResult)
  | Stats (stats : list CacheStat)
  | Success (result : bool).                 (* { success: result } *)

Record Response : Type := mkResponse {
  status : Z;
  body : Body
}.

(** The [console.error] lines of the routes. *)
Inductive RouteLog : Type :=
  | HmaCalculationError (e : Error)
  | HmaCacheStatsError (e : Error)
  | HmaCacheClearError (e : Error).

Definition Route : Type := St → Response * St * list RouteLog.

(** [!value] on a string or [undefined]. *)
Definition falsy (value : option string) : bool :=
  match value with
  | Some s => negb (truthy_string s)
  | None => true
  end.

(** The [authenticate] middleware: [next] runs with [req.accessToken]. *)
Definition authenticate (req : Request) (next : string → Route) : Route :=
  fun st =>
    match authorization req with
    | Some token =>
        if truthy_string token then next token st
        else (mkResponse 401 (ErrorMessage "Authentication token is required"), st, [])
    | None =>
        (mkResponse 401 (ErrorMessage "Authentication token is required"), st, [])
    end.

Section Routes.

Variable localTZA : Z → Z.

(** [GET /api/hma-calc] *)
Definition hma_calc_route (w : World) (req : Request) : Route :=
  authenticate req (fun accessToken st =>
    match symbol_param req with
    | Some symbol =>
        if truthy_string symbol then
          match fetchAndCalculateHMA localTZA w symbol (Some accessToken) st with
          | (inr data, st') => (mkResponse 200 (HmaData data), st', [])
          | (inl error, st') =>
              (mkResponse 500 (ErrorOf error "Failed to calculate HMA"), st',
               [HmaCalculationError error])
          end
        else (mkResponse 400 (ErrorMessage "Symbol parameter is required"), st, [])
    | None => (mkResponse 400 (ErrorMessage "Symbol parameter is required"), st, [])
    end).

End Routes.

(** [GET /api/hma-cache-stats] *)
Definition hma_cache_stats_route : Route :=
  fun st =>
    match getCacheStats st with
    | (inr stats, st') => (mkResponse 200 (Stats stats), st', [])
    | (inl error, st') =>
        (mkResponse 500 (ErrorOf error "Failed to get HMA cache stats"), st',
         [HmaCacheStatsError error])
    end.

(** [POST /api/hma-cache/clear] *)
Definition hma_cache_clear_route (req : Request) : Route :=
  authenticate req (fun _ st =>
    match symbol_param req with
    | Some symbol =>
        if truthy_string symbol then
          match clearCache symbol st with
          | (inr result, st') => (mkResponse 200 (Success result), st', [])
          | (inl error, st') =>
              (mkResponse 500 (ErrorOf error "Failed to clear HMA cache"), st',
               [HmaCacheClearError error])
          end
        else (mkResponse 400 (ErrorMessage "Symbol parameter is required"), st, [])
    | None => (mkResponse 400 (ErrorMessage "Symbol parameter is required"), st, [])
    end).

(** ** Several requests in a row *)

Section Sequences.

Variable localTZA : Z → Z.

(** The calls [fetchAndCalculateHMA(symbol, token)] made one after the
    other, each in its own world; the outcomes are collected in order. *)
Fixpoint run_all (calls : list (World * option string)) (symbol : string)
    (st : St) : list (Exc HMAResult) * St :=
  match calls with
  | [] => ([], st)
  | (w, accessToken) :: rest =>
      let '(outcome, st') := fetchAndCalculateHMA localTZA w symbol accessToken st in
      let '(outcomes, st'') := run_all rest symbol st' in
      (outcome :: outcomes, st'')
  end.

End Sequences.

(** The errors [fetchAndCalculateHMA] lets through on the replies a [World]
    holds. *)
Definition service_error (symbol : string) (e : Error) : Prop :=
  match e with
  | NoAuthToken | ApiError _ | NetworkError _ => True
  | NoHistoricalData s => s = symbol
  | InsufficientCandles need got => need = 60 ∧ 0 ≤ got < 60
  | TypeError | InsufficientData _ => False
  end.

(** A read 5 min 01 s after the write, with the broker answering again. *)
Definition world_5m01_ok : World :=
  mkWorld (1704100000007 + 301000)
    (HttpResponse "ok" (Some (session_bars 60)) None)
    (1704100000007 + 301005) (1704100000007 + 301009).

(** * Properties *)

(** ** Array access *)

Lemma at_index_Some {A} (l : list A) (z : Z) :
  0 ≤ z < Z.of_nat (length l) → ∃ a, at_index l z = Some a.
Proof.
  intros [Hlo Hhi]. unfold at_index.
  destruct (Z.ltb_spec z 0) as [|_]; [lia|].
  destruct (lookup_lt_is_Some_2 l (Z.to_nat z)) as [a Ha]; [lia|].
  by exists a.
Qed.

Lemma at_index_of_nat {A} (l : list A) (i : nat) :
  at_index l (Z.of_nat i) = l !! i.
Proof.
  unfold at_index. destruct (Z.ltb_spec (Z.of_nat i) 0) as [|_]; [lia|].
  by rewrite Nat2Z.id.
Qed.

Lemma member_in_range (data : list HMAPoint) (z : Z) :
  0 ≤ z < Z.of_nat (length data) →
  ∃ p, member data z = ret p ∧ p_close p = point_closes data z.
Proof.
  intros Hz. destruct (at_index_Some data z Hz) as [p Hp].
  exists p. unfold member, point_closes. by rewrite Hp.
Qed.

(** ** The accumulation loops *)

Lemma wma_fold_ok (data : list HMAPoint) (index n : Z) (js : list Z) (w s : JS.num) :
  Forall (fun j => 0 ≤ index - j < Z.of_nat (length data)) js →
  foldl (wma_step data index n) (ret (w, s)) js
  = ret (foldl (fun acc j => (acc + point_closes data (index - j)%Z * JS.of_Z (n - j)%Z)%js) w js,
         foldl (fun acc j => (acc + JS.of_Z (n - j)%Z)%js) s js).
Proof.
  intros Hjs. revert w s.
  induction Hjs as [|j js Hj _ IH]; intros w s; [done|].
  cbn [foldl]. destruct (member_in_range data (index - j) Hj) as (p & Hp & Hc).
  unfold wma_step at 2. cbn [bind ret]. rewrite Hp. cbn [bind ret].
  rewrite Hc. apply IH.
Qed.

Lemma wma_loop_ok (data : list HMAPoint) (index n : Z) :
  n - 1 ≤ index < Z.of_nat (length data) →
  wma_loop data index n
  = ret (Spec.weighted_sum (point_closes data) index n, weight_total n).
Proof.
  intros Hi. unfold wma_loop. apply wma_fold_ok.
  apply Forall_seqZ. lia.
Qed.

Lemma weight_total_27 : weight_total 27 = JS.of_Z (27 * (27 + 1) / 2).
Proof. vm_compute. reflexivity. Qed.

Lemma weight_total_55 : weight_total 55 = JS.of_Z (55 * (55 + 1) / 2).
Proof. vm_compute. reflexivity. Qed.

Lemma weight_total_7 : weight_total 7 = JS.of_Z (7 * (7 + 1) / 2).
Proof. vm_compute. reflexivity. Qed.

Lemma calculateWMA_27 (data : list HMAPoint) (index : Z) :
  26 ≤ index < Z.of_nat (length data) →
  calculateWMA data index 27 = ret (Spec.WMA (point_closes data) index 27).
Proof.
  intros Hi. unfold calculateWMA.
  destruct (Z.ltb_spec index (27 - 1)) as [|_]; [lia|].
  rewrite wma_loop_ok by lia. cbn [bind ret]. by rewrite weight_total_27.
Qed.

Lemma calculateWMA_55 (data : list HMAPoint) (index : Z) :
  54 ≤ index < Z.of_nat (length data) →
  calculateWMA data index 55 = ret (Spec.WMA (point_closes data) index 55).
Proof.
  intros Hi. unfold calculateWMA.
  destruct (Z.ltb_spec index (55 - 1)) as [|_]; [lia|].
  rewrite wma_loop_ok by lia. cbn [bind ret]. by rewrite weight_total_55.
Qed.

Lemma final_fold_ok (data : list HMAPoint) (index : Z) (js : list Z) (w s : JS.num) :
  Forall (fun j => 54 ≤ index - j < Z.of_nat (length data)) js →
  foldl (final_step data index 55 27 7) (ret (w, s)) js
  = ret (foldl (fun acc j =>
                  (acc + Spec.rawHMA (point_closes data) (index - j)%Z * JS.of_Z (7 - j)%Z)%js) w js,
         foldl (fun acc j => (acc + JS.of_Z (7 - j)%Z)%js) s js).
Proof.
  intros Hjs. revert w s.
  induction Hjs as [|j js Hj _ IH]; intros w s; [done|].
  cbn [foldl]. unfold final_step at 2. cbn [bind ret].
  destruct (Z.ltb_spec (index - j - (55 - 1)) 0) as [|_]; [lia|].
  rewrite calculateWMA_27, calculateWMA_55 by lia. cbn [bind ret].
  apply IH.
Qed.

Lemma calculateHMAForPoint_ok (data : list HMAPoint) (index : Z) :
  54 ≤ index < Z.of_nat (length data) →
  calculateHMAForPoint data index HMA_PERIOD = ret (Spec.hma (point_closes data) index).
Proof.
  intros Hi. unfold calculateHMAForPoint, HMA_PERIOD, Spec.hma.
  destruct (Z.ltb_spec index (55 - 1)) as [|_]; [lia|].
  destruct (Z.ltb_spec index 54) as [|_]; [lia|].
  change (55 / 2) with 27. change (Z.sqrt 55) with 7.
  rewrite !wma_loop_ok by lia. cbn [bind ret].
  rewrite weight_total_27, weight_total_55.
  change (55 + 7 - 2) with 60.
  destruct (Z.ltb_spec index 60) as [Hlt|Hge]; [done|].
  unfold Spec.smoothedHMA, Spec.WMA at 1, Spec.weighted_sum at 1.
  rewrite final_fold_ok by (apply Forall_seqZ; lia).
  cbn [bind ret]. fold (weight_total 7). by rewrite weight_total_7.
Qed.

(** ** The specification's definitions respect pointwise equality *)

Lemma weighted_sum_ext (f g : Z → JS.num) (idx n : Z) :
  (∀ k, f k = g k) → Spec.weighted_sum f idx n = Spec.weighted_sum g idx n.
Proof.
  intros Hfg. unfold Spec.weighted_sum.
  generalize JS.zero as a. induction (seqZ 0 n) as [|j js IH]; intros a; [done|].
  cbn [foldl]. rewrite Hfg. apply IH.
Qed.

Lemma WMA_ext (f g : Z → JS.num) (idx n : Z) :
  (∀ k, f k = g k) → Spec.WMA f idx n = Spec.WMA g idx n.
Proof. intros Hfg. unfold Spec.WMA. by rewrite (weighted_sum_ext f g). Qed.

Lemma rawHMA_ext (f g : Z → JS.num) (i : Z) :
  (∀ k, f k = g k) → Spec.rawHMA f i = Spec.rawHMA g i.
Proof.
  intros Hfg. unfold Spec.rawHMA.
  by rewrite (WMA_ext f g i 27), (WMA_ext f g i 55).
Qed.

Lemma hma_ext (f g : Z → JS.num) (i : Z) :
  (∀ k, f k = g k) → Spec.hma f i = Spec.hma g i.
Proof.
  intros Hfg. unfold Spec.hma, Spec.smoothedHMA.
  rewrite (rawHMA_ext f g i Hfg).
  rewrite (WMA_ext (Spec.rawHMA f) (Spec.rawHMA g)); [done|].
  intros k. by apply rawHMA_ext.
Qed.

(** ** The loop of [calculateHMAFromCandles] *)

Lemma length_hma_filled (candles : list Candle) (k : Z) :
  length (hma_filled candles k) = length candles.
Proof. unfold hma_filled. apply length_imap. Qed.

Lemma lookup_hma_filled (candles : list Candle) (k : Z) (i : nat) :
  hma_filled candles k !! i
  = (fun c => mkPoint (timestamp c) (close c)
       (Num (if (54 <=? Z.of_nat i) && (Z.of_nat i <? k)
             then Spec.hma (closes_of candles) (Z.of_nat i)
             else JS.zero))) <$> candles !! i.
Proof. unfold hma_filled. by rewrite list_lookup_imap. Qed.

Lemma hma_filled_start (candles : list Candle) :
  hma_filled candles 54 = map to_point candles.
Proof.
  apply list_eq. intros i.
  rewrite lookup_hma_filled, list_lookup_fmap.
  destruct (candles !! i) as [c|]; [|done]. cbn.
  destruct (Z.leb_spec 54 (Z.of_nat i)), (Z.ltb_spec (Z.of_nat i) 54);
    try done; lia.
Qed.

Lemma point_closes_filled (candles : list Candle) (k z : Z) :
  point_closes (hma_filled candles k) z = closes_of candles z.
Proof.
  unfold point_closes, closes_of, at_index.
  destruct (z <? 0); [done|].
  rewrite lookup_hma_filled. by destruct (candles !! Z.to_nat z).
Qed.

Lemma hma_step_filled (candles : list Candle) (k : Z) :
  54 ≤ k < Z.of_nat (length candles) →
  hma_step (ret (hma_filled candles k)) k = ret (hma_filled candles (k + 1)).
Proof.
  intros Hk. unfold hma_step. cbn [bind ret].
  rewrite calculateHMAForPoint_ok by (rewrite length_hma_filled; lia).
  cbn [bind ret]. unfold set_hma, member.
  destruct (at_index_Some (hma_filled candles k) k) as [p Hp];
    [rewrite length_hma_filled; lia|].
  rewrite Hp. cbn [bind ret]. f_equal.
  apply list_eq. intros i.
  assert (Hpk : hma_filled candles k !! Z.to_nat k = Some p).
  { unfold at_index in Hp. by destruct (Z.ltb_spec k 0) as [|_]; [lia|]. }
  destruct (decide (i = Z.to_nat k)) as [->|Hne].
  - rewrite list_lookup_insert_eq by (rewrite length_hma_filled; lia).
    rewrite lookup_hma_filled in Hpk |- *.
    destruct (candles !! Z.to_nat k) as [c|]; [|done].
    cbn in Hpk |- *. injection Hpk as <-. cbn.
    rewrite Z2Nat.id by lia.
    destruct (Z.leb_spec 54 k); [|lia].
    destruct (Z.ltb_spec k (k + 1)); [|lia]. cbn.
    do 3 f_equal. apply hma_ext. intros z. apply point_closes_filled.
  - rewrite list_lookup_insert_ne by done.
    rewrite !lookup_hma_filled.
    destruct (candles !! i) as [c|]; [|done]. cbn.
    destruct (Z.leb_spec 54 (Z.of_nat i)); [|done]. cbn.
    destruct (Z.ltb_spec (Z.of_nat i) k), (Z.ltb_spec (Z.of_nat i) (k + 1));
      try done; lia.
Qed.

Lemma hma_loop_filled (candles : list Candle) (n : nat) (k : Z) :
  54 ≤ k → k + Z.of_nat n ≤ Z.of_nat (length candles) →
  foldl hma_step (ret (hma_filled candles k)) (seqZ k (Z.of_nat n))
  = ret (hma_filled candles (k + Z.of_nat n)).
Proof.
  revert k. induction n as [|n IH]; intros k Hk Hlen.
  - rewrite seqZ_nil by lia. cbn. by rewrite Z.add_0_r.
  - rewrite seqZ_cons by lia. cbn [foldl].
    rewrite hma_step_filled by lia.
    replace (Z.pred (Z.of_nat (S n))) with (Z.of_nat n) by lia.
    rewrite IH by lia. do 2 f_equal. lia.
Qed.

(** The closed form of a successful run. *)
Lemma calculateHMAFromCandles_ok (now : Z) (candles : list Candle) :
  55 ≤ Z.of_nat (length candles) →
  let len := Z.of_nat (length candles) in
  calculateHMAFromCandles now candles
  = ret (mkResult HMA_PERIOD (hma_filled candles len)
           (hma_or_zero (at_index (hma_filled candles len) (len - 1))) now).
Proof.
  intros Hlen len. unfold calculateHMAFromCandles, HMA_PERIOD. fold len.
  destruct (Z.ltb_spec len 55) as [|_]; [lia|].
  rewrite <- hma_filled_start. change (55 - 1) with 54.
  replace (len - 54) with (Z.of_nat (Z.to_nat (len - 54))) by lia.
  rewrite hma_loop_filled by lia. cbn [bind ret].
  by replace (54 + Z.of_nat (Z.to_nat (len - 54))) with len by lia.
Qed.

(** ** C1: the piecewise shape of the HMA series *)

(** C1.  For every candle sequence of length at least 55,
    [calculateHMAFromCandles] returns a series whose [hma] is [0] at every
    index below 54, the unsmoothed [2*WMA(i,27) - WMA(i,55)] at indices 54
    to 59, and the 7-point weighted average (weights 7..1) of the unsmoothed
    values at [i, i-1, ..., i-6] from index 60 on. *)
Theorem hma_series_piecewise (now : Z) (candles : list Candle) :
  55 ≤ Z.of_nat (length candles) →
  ∃ r, calculateHMAFromCandles now candles = ret r ∧
    ∀ i, 0 ≤ i < Z.of_nat (length candles) →
      ∃ p, at_index (data r) i = Some p ∧
        (i < 54 → p_hma p = Num JS.zero) ∧
        (54 ≤ i < 60 →
           p_hma p = Num (JS.two * Spec.WMA (closes_of candles) i 27
                          - Spec.WMA (closes_of candles) i 55)%js) ∧
        (60 ≤ i →
           p_hma p = Num (Spec.WMA (Spec.rawHMA (closes_of candles)) i 7)).
Proof.
  intros Hlen. eexists. split; [by apply calculateHMAFromCandles_ok|].
  intros i Hi. cbn [data].
  destruct (at_index_Some candles i Hi) as [c Hc].
  unfold at_index in Hc |- *. destruct (Z.ltb_spec i 0) as [|_]; [lia|].
  rewrite lookup_hma_filled, Hc. cbn. eexists. split; [done|]. cbn [p_hma].
  rewrite Z2Nat.id by lia.
  destruct (Z.ltb_spec i (Z.of_nat (length candles))) as [_|]; [|lia].
  unfold Spec.hma, Spec.smoothedHMA, Spec.rawHMA.
  repeat split; intros Hcase.
  - destruct (Z.leb_spec 54 i); [lia|done].
  - destruct (Z.leb_spec 54 i); [|lia]. cbn.
    destruct (Z.ltb_spec i 54); [lia|].
    destruct (Z.ltb_spec i 60); [done|lia].
  - destruct (Z.leb_spec 54 i); [|lia]. cbn.
    destruct (Z.ltb_spec i 54); [lia|].
    destruct (Z.ltb_spec i 60); [lia|done].
Qed.

Lemma hma_series_piecewise_witness :
  55 ≤ Z.of_nat (length (ramp 60)) ∧
  ∃ r, calculateHMAFromCandles 0 (ramp 60) = ret r ∧
    ∀ i, 0 ≤ i < Z.of_nat (length (ramp 60)) →
      ∃ p, at_index (data r) i = Some p ∧
        (i < 54 → p_hma p = Num JS.zero) ∧
        (54 ≤ i < 60 →
           p_hma p = Num (JS.two * Spec.WMA (closes_of (ramp 60)) i 27
                          - Spec.WMA (closes_of (ramp 60)) i 55)%js) ∧
        (60 ≤ i →
           p_hma p = Num (Spec.WMA (Spec.rawHMA (closes_of (ramp 60))) i 7)).
Proof.
  split; [vm_compute; discriminate|].
  apply (hma_series_piecewise 0 (ramp 60)). vm_compute. discriminate.
Defined.

(** ** C3: the insufficient-data gate *)

Lemma nonzero_count_app (l1 l2 : list HMAPoint) :
  nonzero_count (l1 ++ l2) = (nonzero_count l1 + nonzero_count l2)%nat.
Proof. unfold nonzero_count. by rewrite List.filter_app, length_app. Qed.

Lemma nonzero_count_zeros (l : list HMAPoint) :
  Forall (fun p => p_hma p = Num JS.zero) l → nonzero_count l = 0%nat.
Proof.
  unfold nonzero_count. induction 1 as [|p l Hp _ IH]; [done|].
  cbn [List.filter]. rewrite Hp. cbn. exact IH.
Qed.

(** On C3 as stated: for the 55 candles [balanced55] the run
    succeeds and no point at all is non-zero, because
    [2*WMA(54,27) = WMA(54,55)] there. *)
Lemma balanced55_has_no_nonzero_point :
  length balanced55 = 55%nat ∧
  ∃ r, calculateHMAFromCandles 0 balanced55 = ret r ∧
       nonzero_count (data r) = 0%nat ∧
       nonzero_count (data r) ≠ 1%nat.
Proof.
  split; [reflexivity|]. eexists. split; [vm_compute; reflexivity|].
  split; [vm_compute; reflexivity|]. vm_compute. discriminate.
Qed.

(** C3 (amended).  With fewer than 55 candles [calculateHMAFromCandles]
    throws the insufficient-data error.  With exactly 55 it succeeds with
    55 points; every point but the one at index 54 has [hma = 0], and the
    point at index 54 carries [2*WMA(54,27) - WMA(54,55)], so the series has
    one non-zero point when that value is non-zero and none otherwise. *)
Theorem insufficient_data_gate (now : Z) (cs : list Candle) :
  (Z.of_nat (length cs) < 55 →
     calculateHMAFromCandles now cs = throw (InsufficientData 55))
  ∧ (length cs = 55%nat →
     ∃ r, calculateHMAFromCandles now cs = ret r ∧
       length (data r) = 55%nat ∧
       (∀ i p, data r !! i = Some p → i ≠ 54%nat → p_hma p = Num JS.zero) ∧
       (∃ p, data r !! 54%nat = Some p ∧
             p_hma p = Num (Spec.rawHMA (closes_of cs) 54)) ∧
       nonzero_count (data r)
       = if JS.nonzero (Spec.rawHMA (closes_of cs) 54) then 1%nat else 0%nat).
Proof.
  split.
  - intros Hlt. unfold calculateHMAFromCandles, HMA_PERIOD.
    by destruct (Z.ltb_spec (Z.of_nat (length cs)) 55) as [_|]; [|lia].
  - intros Hlen. eexists. split.
    { apply calculateHMAFromCandles_ok. lia. }
    cbn [data]. rewrite Hlen. change (Z.of_nat 55) with 55.
    assert (Hpt : ∀ i p, hma_filled cs 55 !! i = Some p →
              p_hma p = Num (if (i =? 54)%nat
                             then Spec.rawHMA (closes_of cs) 54 else JS.zero)).
    { intros i p Hp. rewrite lookup_hma_filled in Hp.
      destruct (cs !! i) as [c|] eqn:Hc; [|done].
      apply lookup_lt_Some in Hc. injection Hp as <-. cbn.
      destruct (Nat.eqb_spec i 54) as [->|Hne]; [done|].
      destruct (Z.leb_spec 54 (Z.of_nat i)); [lia|done]. }
    split; [by rewrite length_hma_filled|]. split; [|split].
    + intros i p Hp Hne. rewrite (Hpt i p Hp).
      by destruct (Nat.eqb_spec i 54).
    + destruct (lookup_lt_is_Some_2 (hma_filled cs 55) 54) as [p Hp].
      { rewrite length_hma_filled. lia. }
      exists p. split; [done|]. by rewrite (Hpt 54%nat p Hp).
    + rewrite <- (take_drop 54 (hma_filled cs 55)), nonzero_count_app.
      rewrite nonzero_count_zeros.
      2:{ apply Forall_lookup. intros i p Hp.
          apply lookup_take_Some in Hp as [Hp Hi].
          rewrite (Hpt i p Hp). destruct (Nat.eqb_spec i 54); [lia|done]. }
      destruct (lookup_lt_is_Some_2 (hma_filled cs 55) 54) as [p Hp].
      { rewrite length_hma_filled. lia. }
      rewrite (drop_S _ _ _ Hp), drop_ge by (rewrite length_hma_filled; lia).
      unfold nonzero_count. cbn. rewrite (Hpt 54%nat p Hp). cbn.
      by destruct (JS.nonzero _).
Qed.

Lemma insufficient_data_gate_witness :
  (Z.of_nat (length (ramp 54)) < 55 ∧
   calculateHMAFromCandles 0 (ramp 54) = throw (InsufficientData 55))
  ∧ (length (ramp 55) = 55%nat ∧
     ∃ r, calculateHMAFromCandles 0 (ramp 55) = ret r ∧
       length (data r) = 55%nat ∧
       (∀ i p, data r !! i = Some p → i ≠ 54%nat → p_hma p = Num JS.zero) ∧
       (∃ p, data r !! 54%nat = Some p ∧
             p_hma p = Num (Spec.rawHMA (closes_of (ramp 55)) 54)) ∧
       nonzero_count (data r)
       = if JS.nonzero (Spec.rawHMA (closes_of (ramp 55)) 54)
         then 1%nat else 0%nat).
Proof.
  split.
  - split; [vm_compute; reflexivity|].
    apply (insufficient_data_gate 0 (ramp 54)). vm_compute. reflexivity.
  - split; [reflexivity|].
    apply (insufficient_data_gate 0 (ramp 55)). reflexivity.
Defined.

(** ** C10: the result keeps the shape of the input *)

(** On C10 as stated: when every close is [1e308] the weighted sums
    overflow, the last point's [hma] is [NaN], and [currentHMA] is [0]. *)
Lemma overflow55_currentHMA_differs :
  55 ≤ Z.of_nat (length overflow55) ∧
  ∃ r p, calculateHMAFromCandles 0 overflow55 = ret r ∧
         last (data r) = Some p ∧
         p_hma p = Num PrimFloat.nan ∧
         currentHMA r = Num JS.zero ∧
         currentHMA r ≠ p_hma p.
Proof.
  split; [vm_compute; discriminate|].
  eexists _, _. split; [vm_compute; reflexivity|].
  split; [vm_compute; reflexivity|].
  split; [reflexivity|]. split; [reflexivity|].
  intros H.
  apply (f_equal (fun v => match v with
                           | Num x => PrimFloat.is_nan x
                           | Null => false
                           end)) in H.
  vm_compute in H. discriminate.
Qed.

(** C10 (amended).  For at least 55 candles the result has period 55 and
    exactly one point per candle, each with the candle's timestamp and
    close; [currentHMA] is the last point's [hma] when that number is
    truthy, and [0] when it is [NaN] or a zero. *)
Theorem result_keeps_input_shape (now : Z) (cs : list Candle) :
  55 ≤ Z.of_nat (length cs) →
  ∃ r, calculateHMAFromCandles now cs = ret r ∧
    period r = 55 ∧ lastUpdate r = now ∧
    length (data r) = length cs ∧
    (∀ i c, cs !! i = Some c →
       ∃ p, data r !! i = Some p ∧
            p_timestamp p = timestamp c ∧ p_close p = close c) ∧
    (∃ p x, last (data r) = Some p ∧ p_hma p = Num x ∧
       currentHMA r = Num (if JS.truthy x then x else JS.zero)).
Proof.
  intros Hlen. eexists. split; [by apply calculateHMAFromCandles_ok|].
  cbn [period lastUpdate data currentHMA].
  split; [done|]. split; [done|]. split; [apply length_hma_filled|].
  split.
  - intros i c Hc. rewrite lookup_hma_filled, Hc. cbn. by eexists.
  - set (len := Z.of_nat (length cs)).
    destruct (at_index_Some (hma_filled cs len) (len - 1)) as [p Hp].
    { rewrite length_hma_filled. lia. }
    rewrite Hp. unfold at_index in Hp.
    destruct (Z.ltb_spec (len - 1) 0) as [|_]; [lia|].
    assert (Hlast : last (hma_filled cs len) = Some p).
    { rewrite last_lookup, length_hma_filled, <- Hp. f_equal. lia. }
    rewrite lookup_hma_filled in Hp.
    destruct (cs !! Z.to_nat (len - 1)) as [c|]; [|done].
    injection Hp as <-. cbn. eexists _, _. split; [exact Hlast|].
    split; [done|]. by destruct (JS.truthy _).
Qed.

Lemma result_keeps_input_shape_witness :
  55 ≤ Z.of_nat (length (ramp 60)) ∧
  ∃ r, calculateHMAFromCandles 7 (ramp 60) = ret r ∧
    period r = 55 ∧ lastUpdate r = 7 ∧
    length (data r) = length (ramp 60) ∧
    (∀ i c, ramp 60 !! i = Some c →
       ∃ p, data r !! i = Some p ∧
            p_timestamp p = timestamp c ∧ p_close p = close c) ∧
    (∃ p x, last (data r) = Some p ∧ p_hma p = Num x ∧
       currentHMA r = Num (if JS.truthy x then x else JS.zero)).
Proof.
  split; [vm_compute; discriminate|].
  apply (result_keeps_input_shape 7 (ramp 60)). vm_compute. discriminate.
Defined.

(** ** C6: the normaliser keeps exactly the in-session tuples *)

Section NormaliserFacts.

Variable localTZA : Z → Z.

Lemma totalMinutes_convert (t : Raw) :
  totalMinutes (convert localTZA t) = minuteOfDay localTZA (r_ts t).
Proof.
  unfold convert, minuteOfDay. cbn [totalMinutes].
  by destruct (newDate (r_ts t * 1000)).
Qed.

Lemma in_trading_hours_convert (t : Raw) :
  in_trading_hours (convert localTZA t) = in_sessionb localTZA (r_ts t).
Proof.
  unfold in_trading_hours, in_sessionb. by rewrite totalMinutes_convert.
Qed.

Lemma in_sessionb_spec (ts : Z) :
  in_sessionb localTZA ts = true ↔ in_session localTZA ts.
Proof.
  unfold in_sessionb, in_session.
  destruct (minuteOfDay localTZA ts) as [m|].
  - rewrite andb_true_iff, !Z.leb_le. split.
    + intros H. by exists m.
    + intros (m' & [= <-] & H). done.
  - split; [done|]. by intros (m' & [=] & _).
Qed.

Lemma to_raw_convert (t : Raw) : to_raw (convert localTZA t) = t.
Proof. by destruct t. Qed.

Lemma filter_map_convert (raw : list Raw) :
  List.filter in_trading_hours (map (convert localTZA) raw)
  = map (convert localTZA)
        (List.filter (fun t => in_sessionb localTZA (r_ts t)) raw).
Proof.
  induction raw as [|t raw IH]; [done|].
  cbn [map List.filter]. rewrite in_trading_hours_convert.
  destruct (in_sessionb localTZA (r_ts t)); cbn [map]; by rewrite IH.
Qed.

Lemma normalize_filter (raw : list Raw) :
  convertAndFilterTradingHoursCandles localTZA raw
  = map (convert localTZA)
        (List.filter (fun t => in_sessionb localTZA (r_ts t)) raw).
Proof. unfold convertAndFilterTradingHoursCandles. apply filter_map_convert. Qed.

Lemma to_raw_normalize (raw : list Raw) :
  map to_raw (convertAndFilterTradingHoursCandles localTZA raw)
  = List.filter (fun t => in_sessionb localTZA (r_ts t)) raw.
Proof.
  rewrite normalize_filter, map_map. erewrite map_ext; [apply map_id|].
  intros t. apply to_raw_convert.
Qed.

(** [hour*60 + minute] is the number of minutes since local midnight. *)
Lemma minuteOfDay_since_midnight (ts m : Z) :
  minuteOfDay localTZA ts = Some m →
  m = ((ts * 1000 + localTZA (ts * 1000)) / 60000) mod 1440.
Proof.
  unfold minuteOfDay, newDate.
  destruct (Z.abs (ts * 1000) <=? maxTimeValue); [|done].
  intros [= <-]. set (L := ts * 1000 + localTZA (ts * 1000)).
  change 3600000 with (60000 * 60). rewrite <- Z.div_div by lia.
  change 1440 with (60 * 24). rewrite Z.rem_mul_r by lia. lia.
Qed.

(** C6.  The normaliser returns exactly the tuples whose local minute of
    day lies in [[555, 930]], converted to candles, in input order: every
    in-window tuple is kept, nothing else is, and nothing is re-ordered. *)
Theorem normalize_keeps_exactly_in_session (raw : list Raw) :
  let out := convertAndFilterTradingHoursCandles localTZA raw in
  out = map (convert localTZA)
            (List.filter (fun t => in_sessionb localTZA (r_ts t)) raw)
  ∧ map to_raw out = List.filter (fun t => in_sessionb localTZA (r_ts t)) raw
  ∧ (∀ t, t ∈ raw → in_session localTZA (r_ts t) → convert localTZA t ∈ out)
  ∧ (∀ c, c ∈ out →
       ∃ t, t ∈ raw ∧ c = convert localTZA t ∧ in_session localTZA (r_ts t))
  ∧ sublist (map to_raw out) raw.
Proof.
  intros out.
  assert (Hout : out = map (convert localTZA)
            (List.filter (fun t => in_sessionb localTZA (r_ts t)) raw))
    by apply normalize_filter.
  assert (Hraw : map to_raw out
            = List.filter (fun t => in_sessionb localTZA (r_ts t)) raw)
    by apply to_raw_normalize.
  split; [done|]. split; [done|]. split; [|split].
  - intros t Ht Hs. rewrite Hout. apply list_elem_of_fmap.
    exists t. split; [done|]. apply list_elem_of_In, filter_In.
    split; [by apply list_elem_of_In|]. by apply in_sessionb_spec.
  - intros c Hc. rewrite Hout in Hc. apply list_elem_of_fmap in Hc.
    destruct Hc as (t & -> & Ht). apply list_elem_of_In, filter_In in Ht.
    destruct Ht as [Ht Hs]. exists t. split; [by apply list_elem_of_In|].
    split; [done|]. by apply in_sessionb_spec.
  - rewrite Hraw. clear. induction raw as [|t raw IH]; [constructor|].
    cbn [List.filter]. destruct (in_sessionb localTZA (r_ts t)).
    + by apply sublist_skip.
    + by apply sublist_cons.
Qed.

(** ** C8: the session filter is idempotent *)

(** C8.  Every candle the normaliser returns has its minute of day within
    [[555, 930]]; filtering its output again keeps every candle, and so does
    normalising the tuples of its output again. *)
Theorem session_filter_idempotent (raw : list Raw) :
  let out := convertAndFilterTradingHoursCandles localTZA raw in
  Forall (fun c => ∃ m, totalMinutes c = Some m ∧ 555 ≤ m ≤ 930) out
  ∧ List.filter in_trading_hours out = out
  ∧ convertAndFilterTradingHoursCandles localTZA (map to_raw out) = out.
Proof.
  intros out.
  assert (Hall : Forall (fun c => in_trading_hours c = true) out).
  { apply Forall_forall. intros c Hc.
    apply list_elem_of_In in Hc. by apply filter_In in Hc as [_ Hc]. }
  split; [|split].
  - eapply Forall_impl; [exact Hall|]. intros c Hc.
    unfold in_trading_hours, MARKET_START_MINUTES, MARKET_END_MINUTES in Hc.
    destruct (totalMinutes c) as [m|]; [|done].
    apply andb_true_iff in Hc as [H1 H2]. exists m. split; [done|]. lia.
  - clear -Hall. induction Hall as [|c cs Hc _ IH]; [done|].
    cbn [List.filter]. by rewrite Hc, IH.
  - assert (Hout := normalize_filter raw). assert (Hraw := to_raw_normalize raw).
    fold out in Hout, Hraw. rewrite Hraw.
    unfold convertAndFilterTradingHoursCandles at 1.
    rewrite filter_map_convert, Hout. f_equal.
    clear. induction raw as [|t raw IH]; [done|].
    cbn [List.filter].
    destruct (in_sessionb localTZA (r_ts t)) eqn:Ht; [|done].
    cbn [List.filter]. by rewrite Ht, IH.
Qed.

End NormaliserFacts.

(** ** Running the service *)

Lemma calculateHMAFromCandles_computed (now : Z) (cs : list Candle) :
  55 ≤ Z.of_nat (length cs) →
  calculateHMAFromCandles now cs = ret (computed_result now cs).
Proof. intros H. by rewrite calculateHMAFromCandles_ok. Qed.

Lemma with_hma_filled (cs rest : list Candle) (k : nat) :
  drop k cs = rest →
  with_hma (hma_filled cs (Z.of_nat (length cs))) (Z.of_nat k) rest
  = ret (stored_from cs k rest).
Proof.
  revert k. induction rest as [|c rest IH]; intros k Hdrop; [done|].
  assert (Hk : cs !! k = Some c).
  { rewrite <- (Nat.add_0_r k), <- lookup_drop, Hdrop. done. }
  assert (Hlt : (k < length cs)%nat) by (by eapply lookup_lt_Some).
  cbn [with_hma]. unfold HMA_PERIOD. change (55 - 1) with 54.
  replace (Z.of_nat k + 1) with (Z.of_nat (S k)) by lia.
  rewrite (IH (S k)).
  2:{ rewrite (drop_S cs c k Hk) in Hdrop. by injection Hdrop. }
  unfold stored_from. rewrite imap_cons. rewrite Nat.add_0_r.
  destruct (Z.leb_spec 54 (Z.of_nat k)) as [Hge|Hlo].
  - unfold member. rewrite at_index_of_nat, lookup_hma_filled, Hk.
    cbn. destruct (Z.leb_spec 54 (Z.of_nat k)); [|lia].
    destruct (Z.ltb_spec (Z.of_nat k) (Z.of_nat (length cs))); [|lia].
    cbn. do 2 f_equal. apply imap_ext. intros i x _. cbn.
    by replace (k + S i)%nat with (S k + i)%nat by lia.
  - cbn. do 2 f_equal. apply imap_ext. intros i x _. cbn.
    by replace (k + S i)%nat with (S k + i)%nat by lia.
Qed.

Lemma with_hma_computed (now : Z) (cs : list Candle) :
  with_hma (data (computed_result now cs)) 0 cs = ret (stored_candles cs).
Proof. apply (with_hma_filled cs cs 0). done. Qed.

Lemma one_fetch_wrap (symbol resolution : string) (accessToken : option string)
    (pre evs post : list Event) :
  one_fetch symbol resolution accessToken evs →
  Forall (fun ev => is_fetch ev = false ∧ is_http ev = false) pre →
  Forall (fun ev => is_fetch ev = false ∧ is_http ev = false) post →
  one_fetch symbol resolution accessToken (pre ++ evs ++ post).
Proof.
  intros (Hf & Hh & Hin) Hpre Hpost.
  assert (Hquiet : ∀ l,
            Forall (fun ev => is_fetch ev = false ∧ is_http ev = false) l →
            List.filter is_fetch l = [] ∧ List.filter is_http l = []).
  { induction 1 as [|ev l [H1 H2] _ [IH1 IH2]]; [done|].
    cbn. by rewrite H1, H2. }
  destruct (Hquiet pre Hpre) as [Hp1 Hp2].
  destruct (Hquiet post Hpost) as [Hq1 Hq2].
  unfold one_fetch, fetch_count, http_count in *.
  rewrite !List.filter_app, Hp1, Hp2, Hq1, Hq2, !app_nil_r. cbn.
  split; [done|]. split; [done|].
  apply elem_of_app. right. apply elem_of_app. by left.
Qed.

Lemma fetchHistoricalData_run (w : World) (symbol resolution : string)
    (accessToken : option string) :
  ∃ evs, one_fetch symbol resolution accessToken evs ∧
    ∀ st, fetchHistoricalData w symbol resolution accessToken st
          = (history_outcome w accessToken, st_log st evs).
Proof.
  unfold history_outcome, fetchHistoricalData, try_catch, and_then, log,
    raise, pure, st_log, one_fetch.
  destruct accessToken as [token|]; [destruct (truthy_string token)|];
    [destruct (http w) as [reason|s cs message];
     [|destruct (String.eqb s "ok"), cs as [cs|];
       try destruct (String.eqb s "no_data")]| |];
    eexists; (split; [|intros st; cbn;
      rewrite <- ?app_assoc; cbn; reflexivity]); cbn;
    (split; [lia|split; [lia|apply list_elem_of_here]]).
Qed.

Lemma lookup_stored_candles (cs : list Candle) (i : nat) :
  stored_candles cs !! i
  = (fun c => mkCached c
       (if 54 <=? Z.of_nat i
        then Num (Spec.hma (closes_of cs) (Z.of_nat i)) else Null))
    <$> cs !! i.
Proof. unfold stored_candles, stored_from. by rewrite list_lookup_imap. Qed.

Lemma length_stored_candles (cs : list Candle) :
  length (stored_candles cs) = length cs.
Proof. unfold stored_candles, stored_from. apply length_imap. Qed.

Lemma stored_candles_base (cs : list Candle) :
  map cc_candle (stored_candles cs) = cs.
Proof.
  apply list_eq. intros i.
  rewrite list_lookup_fmap, lookup_stored_candles.
  by destruct (cs !! i).
Qed.

Section ServiceFacts.

Variable localTZA : Z → Z.

Local Abbreviation normalize := (convertAndFilterTradingHoursCandles localTZA).
Local Abbreviation run := (fetchAndCalculateHMA localTZA).

Local Ltac quiet := repeat constructor.

Lemma fetch_and_compute_fails (w : World) (symbol : string)
    (accessToken : option string) (e : Error) :
  history_outcome w accessToken = inl e →
  ∃ evs, one_fetch symbol "5" accessToken evs ∧
    ∀ st, fetch_and_compute localTZA w symbol accessToken st
          = (inl e, st_log st evs).
Proof.
  intros Hh.
  destruct (fetchHistoricalData_run w symbol "5" accessToken)
    as (evs & Hone & Hrun).
  exists ([LogRange] ++ evs ++ []). split; [apply one_fetch_wrap; [done|quiet..]|].
  intros st.
  unfold fetch_and_compute, and_then, log. rewrite Hrun, Hh.
  unfold st_log. cbn. by rewrite app_nil_r, <- app_assoc.
Qed.

Lemma fetch_and_compute_empty (w : World) (symbol : string)
    (accessToken : option string) :
  history_outcome w accessToken = inr [] →
  ∃ evs, one_fetch symbol "5" accessToken evs ∧
    ∀ st, fetch_and_compute localTZA w symbol accessToken st
          = (inl (NoHistoricalData symbol), st_log st evs).
Proof.
  intros Hh.
  destruct (fetchHistoricalData_run w symbol "5" accessToken)
    as (evs & Hone & Hrun).
  exists ([LogRange] ++ evs ++ []). split; [apply one_fetch_wrap; [done|quiet..]|].
  intros st.
  unfold fetch_and_compute, and_then, log. rewrite Hrun, Hh.
  unfold st_log, raise. cbn. by rewrite app_nil_r, <- app_assoc.
Qed.

Lemma fetch_and_compute_short (w : World) (symbol : string)
    (accessToken : option string) (raw : list Raw) :
  history_outcome w accessToken = inr raw →
  raw ≠ [] →
  Z.of_nat (length (normalize raw)) < 60 →
  ∃ evs, one_fetch symbol "5" accessToken evs ∧
    ∀ st, fetch_and_compute localTZA w symbol accessToken st
          = (inl (InsufficientCandles 60 (Z.of_nat (length (normalize raw)))),
             st_log st evs).
Proof.
  intros Hh Hne Hshort.
  destruct (fetchHistoricalData_run w symbol "5" accessToken)
    as (evs & Hone & Hrun).
  exists ([LogRange] ++ evs ++ [LogFetched (Z.of_nat (length raw)) symbol]).
  split; [apply one_fetch_wrap; [done|quiet..]|].
  intros st.
  unfold fetch_and_compute, and_then, log. rewrite Hrun, Hh. cbn.
  destruct (Z.eqb_spec (Z.of_nat (length raw)) 0) as [H0|_].
  { destruct raw; [done|cbn in H0; lia]. }
  unfold REQUIRED_CANDLES.
  destruct (Z.ltb_spec (Z.of_nat (length (normalize raw))) 60) as [_|]; [|lia].
  unfold st_log, raise. cbn. by rewrite <- !app_assoc.
Qed.

Lemma fetch_and_compute_succeeds (w : World) (symbol : string)
    (accessToken : option string) (raw : list Raw) :
  history_outcome w accessToken = inr raw →
  60 ≤ Z.of_nat (length (normalize raw)) →
  ∃ evs, one_fetch symbol "5" accessToken evs ∧
    ∀ st, fetch_and_compute localTZA w symbol accessToken st
          = (inr (computed_result (now_compute w) (normalize raw)),
             st_put st symbol
               (mkEntry (stored_candles (normalize raw)) (now_store w) symbol false)
               evs).
Proof.
  intros Hh Hlong.
  destruct (fetchHistoricalData_run w symbol "5" accessToken)
    as (evs & Hone & Hrun).
  exists ([LogRange] ++ evs ++ [LogFetched (Z.of_nat (length raw)) symbol;
            LogDone symbol (currentHMA (computed_result (now_compute w) (normalize raw)))]).
  split; [apply one_fetch_wrap; [done|quiet..]|].
  intros st.
  unfold fetch_and_compute, and_then, log. rewrite Hrun, Hh. cbn.
  destruct (Z.eqb_spec (Z.of_nat (length raw)) 0) as [H0|_].
  { destruct raw; [|cbn in H0; lia]. cbn in Hlong. lia. }
  unfold REQUIRED_CANDLES.
  destruct (Z.ltb_spec (Z.of_nat (length (normalize raw))) 60) as [|_]; [lia|].
  unfold lift. rewrite calculateHMAFromCandles_computed by lia.
  unfold ret. rewrite with_hma_computed.
  unfold st_put, cache_set, pure, ret. cbn. by rewrite <- !app_assoc.
Qed.

Lemma run_hit (w : World) (symbol : string) (accessToken : option string)
    (st : St) (e : CacheEntry) :
  candleCache st !! symbol = Some e →
  fresh (Some e) (now_read w) = true →
  ∃ last,
    at_index (candles e) (Z.of_nat (length (candles e)) - 1) = Some last ∧
    run w symbol accessToken st
    = (inr (mkResult HMA_PERIOD (map cached_point (candles e))
              (cc_hma last) (e_lastUpdate e)),
       st_log st [LogRequest symbol; LogCacheHit symbol]).
Proof.
  intros He Hfresh.
  assert (Hlen : 60 ≤ Z.of_nat (length (candles e))).
  { unfold fresh, REQUIRED_CANDLES in Hfresh.
    apply andb_true_iff in Hfresh as [H _]. lia. }
  destruct (at_index_Some (candles e) (Z.of_nat (length (candles e)) - 1))
    as [last Hlast]; [lia|].
  exists last. split; [done|].
  unfold fetchAndCalculateHMA, and_then, try_catch, log, cache_get.
  cbn. rewrite He, Hfresh. unfold lift, cached_result, member.
  rewrite Hlast. unfold st_log. cbn. by rewrite <- app_assoc.
Qed.

Lemma run_miss (w : World) (symbol : string) (accessToken : option string)
    (st : St) :
  fresh (candleCache st !! symbol) (now_read w) = false →
  run w symbol accessToken st
  = match fetch_and_compute localTZA w symbol accessToken
            (st_log st [LogRequest symbol]) with
    | (inl e, st') => (inl e, st_log st' [LogError symbol e])
    | (inr r, st') => (inr r, st')
    end.
Proof.
  intros Hfresh. unfold fetchAndCalculateHMA.
  generalize (fetch_and_compute localTZA w symbol accessToken). intros F.
  unfold and_then, try_catch, log, cache_get, raise, st_log. cbn.
  destruct (candleCache st !! symbol) as [c|]; [rewrite Hfresh|];
    by destruct (F _) as [[err|r] st'].
Qed.

(** A run either leaves the cache as it is or stores a freshly computed
    entry of at least 60 candles under the requested symbol. *)
Lemma run_cache_cases (w : World) (symbol : string)
    (accessToken : option string) (st : St) :
  candleCache (snd (run w symbol accessToken st)) = candleCache st
  ∨ ∃ cs, 60 ≤ Z.of_nat (length cs) ∧
      fst (run w symbol accessToken st)
        = inr (computed_result (now_compute w) cs) ∧
      candleCache (snd (run w symbol accessToken st))
        = <[symbol := mkEntry (stored_candles cs) (now_store w) symbol false]>
            (candleCache st).
Proof.
  destruct (fresh (candleCache st !! symbol) (now_read w)) eqn:Hfresh.
  - left. destruct (candleCache st !! symbol) as [e|] eqn:He; [|done].
    destruct (run_hit w symbol accessToken st e He Hfresh) as (last & _ & ->).
    done.
  - rewrite run_miss by done.
    destruct (history_outcome w accessToken) as [err|raw] eqn:Hh.
    { destruct (fetch_and_compute_fails w symbol accessToken err Hh)
        as (evs & _ & ->). by left. }
    destruct raw as [|t raw].
    { destruct (fetch_and_compute_empty w symbol accessToken Hh)
        as (evs & _ & ->). by left. }
    destruct (Z.lt_ge_cases (Z.of_nat (length (normalize (t :: raw)))) 60)
      as [Hshort|Hlong].
    + destruct (fetch_and_compute_short w symbol accessToken (t :: raw) Hh)
        as (evs & _ & ->); [done|done|]. by left.
    + destruct (fetch_and_compute_succeeds w symbol accessToken (t :: raw) Hh Hlong)
        as (evs & _ & ->).
      right. exists (normalize (t :: raw)). done.
Qed.

Lemma run_miss_trace (w : World) (symbol : string)
    (accessToken : option string) (st : St) :
  fresh (candleCache st !! symbol) (now_read w) = false →
  ∃ evs, trace (snd (run w symbol accessToken st)) = trace st ++ evs ∧
         one_fetch symbol "5" accessToken evs.
Proof.
  intros Hfresh. rewrite run_miss by done.
  destruct (history_outcome w accessToken) as [err|raw] eqn:Hh.
  { destruct (fetch_and_compute_fails w symbol accessToken err Hh)
      as (evs & Hone & ->).
    exists ([LogRequest symbol] ++ evs ++ [LogError symbol err]).
    split; [cbn; by rewrite <- !app_assoc|].
    apply one_fetch_wrap; [done|quiet..]. }
  destruct raw as [|t raw].
  { destruct (fetch_and_compute_empty w symbol accessToken Hh)
      as (evs & Hone & ->).
    exists ([LogRequest symbol] ++ evs ++ [LogError symbol (NoHistoricalData symbol)]).
    split; [cbn; by rewrite <- !app_assoc|].
    apply one_fetch_wrap; [done|quiet..]. }
  destruct (Z.lt_ge_cases (Z.of_nat (length (normalize (t :: raw)))) 60)
    as [Hshort|Hlong].
  - destruct (fetch_and_compute_short w symbol accessToken (t :: raw) Hh)
      as (evs & Hone & ->); [done|done|].
    eexists ([LogRequest symbol] ++ evs ++ [LogError symbol _]).
    split; [cbn; by rewrite <- !app_assoc|].
    apply one_fetch_wrap; [done|quiet..].
  - destruct (fetch_and_compute_succeeds w symbol accessToken (t :: raw) Hh Hlong)
      as (evs & Hone & ->).
    exists ([LogRequest symbol] ++ evs ++ []).
    split; [cbn; by rewrite app_nil_r, <- !app_assoc|].
    apply one_fetch_wrap; [done|quiet..].
Qed.

Lemma run_miss_success (w : World) (symbol : string)
    (accessToken : option string) (st : St) (r : HMAResult) (st1 : St) :
  fresh (candleCache st !! symbol) (now_read w) = false →
  run w symbol accessToken st = (inr r, st1) →
  ∃ cs, 60 ≤ Z.of_nat (length cs) ∧
    r = computed_result (now_compute w) cs ∧
    candleCache st1
    = <[symbol := mkEntry (stored_candles cs) (now_store w) symbol false]>
        (candleCache st).
Proof.
  intros Hfresh. rewrite run_miss by done.
  destruct (history_outcome w accessToken) as [err|raw] eqn:Hh.
  { destruct (fetch_and_compute_fails w symbol accessToken err Hh)
      as (evs & _ & ->). done. }
  destruct raw as [|t raw].
  { destruct (fetch_and_compute_empty w symbol accessToken Hh)
      as (evs & _ & ->). done. }
  destruct (Z.lt_ge_cases (Z.of_nat (length (normalize (t :: raw)))) 60)
    as [Hshort|Hlong].
  - destruct (fetch_and_compute_short w symbol accessToken (t :: raw) Hh)
      as (evs & _ & ->); done.
  - destruct (fetch_and_compute_succeeds w symbol accessToken (t :: raw) Hh Hlong)
      as (evs & _ & ->).
    intros [= <- <-]. by exists (normalize (t :: raw)).
Qed.

(** ** C4: the cache answers exactly while the entry is fresh *)

(** C4.  For an entry written at [T]: with at least 60 candles, a read
    before [T + 5 min] returns the result built from the entry (period 55,
    one point per stored candle with that candle's timestamp, close and
    [hma], the [hma] of the last stored candle as [currentHMA], and [T] as
    [lastUpdate]), calls no fetch and leaves the cache alone; a read at or
    after [T + 5 min] goes through the history fetch and, when the history
    leaves at least 60 candles in session, returns the freshly computed
    result and replaces the entry; and an entry of fewer than 60 candles is
    never served, whatever its age. *)
Theorem cache_freshness_boundary (w : World) (symbol : string)
    (accessToken : option string) (st : St) (e : CacheEntry) :
  candleCache st !! symbol = Some e →
  let T := e_lastUpdate e in
  let n := Z.of_nat (length (candles e)) in
  let out := run w symbol accessToken st in
  (60 ≤ n → now_read w < T + 5 * 60 * 1000 →
     ∃ r, cached_result e = ret r ∧
          out = (inr r, st_log st [LogRequest symbol; LogCacheHit symbol]) ∧
          fetch_count [LogRequest symbol; LogCacheHit symbol] = 0%nat ∧
          http_count [LogRequest symbol; LogCacheHit symbol] = 0%nat ∧
          period r = 55 ∧
          lastUpdate r = T ∧
          length (data r) = length (candles e) ∧
          (∀ i c, candles e !! i = Some c →
             data r !! i
             = Some (mkPoint (timestamp (cc_candle c)) (close (cc_candle c))
                       (cc_hma c))) ∧
          (∃ c, last (candles e) = Some c ∧ currentHMA r = cc_hma c))
  ∧ (T + 5 * 60 * 1000 ≤ now_read w ∨ n < 60 →
     out = match fetch_and_compute localTZA w symbol accessToken
                   (st_log st [LogRequest symbol]) with
           | (inl err, st') => (inl err, st_log st' [LogError symbol err])
           | (inr r, st') => (inr r, st')
           end ∧
     (∃ evs, trace (snd out) = trace st ++ evs ∧
             one_fetch symbol "5" accessToken evs) ∧
     (∀ raw, history_outcome w accessToken = inr raw →
        60 ≤ Z.of_nat (length (normalize raw)) →
        fst out = inr (computed_result (now_compute w) (normalize raw)) ∧
        candleCache (snd out)
        = <[symbol := mkEntry (stored_candles (normalize raw)) (now_store w)
                        symbol false]> (candleCache st))).
Proof.
  intros He T n out. split.
  - intros Hn Hnow.
    assert (Hfresh : fresh (Some e) (now_read w) = true).
    { unfold fresh, REQUIRED_CANDLES. apply andb_true_iff.
      split; [apply Z.leb_le|apply Z.ltb_lt]; subst T n; lia. }
    destruct (run_hit w symbol accessToken st e He Hfresh) as (last & Hlast & Hrun).
    eexists. split; [|split; [exact Hrun|]].
    { unfold cached_result, member. by rewrite Hlast. }
    cbn [period lastUpdate data currentHMA].
    split; [done|]. split; [done|]. split; [done|]. split; [done|].
    split; [apply length_map|]. split.
    + intros i c Hc. by rewrite list_lookup_fmap, Hc.
    + exists last. split; [|done].
      unfold at_index in Hlast.
      destruct (Z.ltb_spec (Z.of_nat (length (candles e)) - 1) 0) as [|_];
        [subst n; lia|].
      rewrite last_lookup, <- Hlast. f_equal. lia.
  - intros Hstale.
    assert (Hfresh : fresh (candleCache st !! symbol) (now_read w) = false).
    { rewrite He. unfold fresh, REQUIRED_CANDLES. apply andb_false_iff.
      destruct Hstale; [right; apply Z.ltb_ge|left; apply Z.leb_gt];
        subst T n; lia. }
    split; [subst out; by rewrite run_miss|].
    split; [by apply run_miss_trace|].
    intros raw Hh Hlong. subst out. rewrite run_miss by done.
    destruct (fetch_and_compute_succeeds w symbol accessToken raw Hh Hlong)
      as (evs & _ & ->).
    done.
Qed.

(** ** C7: a failed refresh leaves the cache alone *)

(** C7.  When the history fetch fails, returns nothing, or leaves fewer
    than 60 candles after normalisation, the cache after the call is the
    cache before it; and unless the cache answered, the call fails, with
    the fetch's own error in the first case, after exactly one call of the
    fetch. *)
Theorem failed_refresh_leaves_cache (w : World) (symbol : string)
    (accessToken : option string) (st : St) :
  let out := run w symbol accessToken st in
  let miss := fresh (candleCache st !! symbol) (now_read w) = false in
  (∀ err, history_outcome w accessToken = inl err →
     candleCache (snd out) = candleCache st ∧
     (miss → fst out = inl err ∧
        ∃ evs, trace (snd out) = trace st ++ evs ∧
               one_fetch symbol "5" accessToken evs))
  ∧ (∀ raw, history_outcome w accessToken = inr raw →
       Z.of_nat (length (normalize raw)) < 60 →
       candleCache (snd out) = candleCache st ∧
       (miss →
          fst out = inl (match raw with
                         | [] => NoHistoricalData symbol
                         | _ => InsufficientCandles 60
                                  (Z.of_nat (length (normalize raw)))
                         end) ∧
          ∃ evs, trace (snd out) = trace st ++ evs ∧
                 one_fetch symbol "5" accessToken evs)).
Proof.
  intros out miss.
  assert (Hhit : fresh (candleCache st !! symbol) (now_read w) = true →
            candleCache (snd out) = candleCache st).
  { intros Hfresh. destruct (candleCache st !! symbol) as [e|] eqn:He; [|done].
    subst out.
    by destruct (run_hit w symbol accessToken st e He Hfresh) as (last & _ & ->). }
  split.
  - intros err Hh.
    destruct (fresh (candleCache st !! symbol) (now_read w)) eqn:Hfresh.
    { split; [by apply Hhit|]. subst miss. done. }
    assert (Hrun := run_miss w symbol accessToken st Hfresh).
    assert (Htr := run_miss_trace w symbol accessToken st Hfresh).
    destruct (fetch_and_compute_fails w symbol accessToken err Hh)
      as (evs & _ & Hfc).
    rewrite Hfc in Hrun. subst out. rewrite Hrun in *. done.
  - intros raw Hh Hshort.
    destruct (fresh (candleCache st !! symbol) (now_read w)) eqn:Hfresh.
    { split; [by apply Hhit|]. subst miss. done. }
    assert (Hrun := run_miss w symbol accessToken st Hfresh).
    assert (Htr := run_miss_trace w symbol accessToken st Hfresh).
    destruct raw as [|t raw].
    + destruct (fetch_and_compute_empty w symbol accessToken Hh)
        as (evs & _ & Hfc).
      rewrite Hfc in Hrun. subst out. rewrite Hrun in *. done.
    + destruct (fetch_and_compute_short w symbol accessToken (t :: raw) Hh)
        as (evs & _ & Hfc); [done|done|].
      rewrite Hfc in Hrun. subst out. rewrite Hrun in *. done.
Qed.

(** ** C5: eviction *)

(** On C5 as stated: evicting a symbol that has no entry still
    returns [true]. *)
Lemma clearCache_true_without_entry :
  candleCache st_empty !! "NSE:NIFTY50-INDEX" = None ∧
  fst (clearCache "NSE:NIFTY50-INDEX" st_empty) = inr true ∧
  ¬ (fst (clearCache "NSE:NIFTY50-INDEX" st_empty) = inr true
     ↔ is_Some (candleCache st_empty !! "NSE:NIFTY50-INDEX")).
Proof.
  split; [reflexivity|]. split; [reflexivity|].
  intros [H _]. destruct (H eq_refl) as [e He]. discriminate He.
Qed.

(** C5 (amended).  For a non-empty symbol, [clearCache] removes the entry
    of that symbol if there is one, leaves every other entry as it was and
    returns [true], whether or not there was an entry; the next
    [fetchAndCalculateHMA] for the symbol then goes through the history
    fetch.  For the empty symbol it returns [false] and changes nothing. *)
Theorem clearCache_evicts (symbol : string) (st : St) :
  (symbol ≠ "" →
     let st' := snd (clearCache symbol st) in
     fst (clearCache symbol st) = inr true ∧
     candleCache st' !! symbol = None ∧
     (∀ other, other ≠ symbol →
        candleCache st' !! other = candleCache st !! other) ∧
     (∀ w accessToken,
        ∃ evs, trace (snd (run w symbol accessToken st')) = trace st' ++ evs ∧
               one_fetch symbol "5" accessToken evs))
  ∧ (symbol = "" → clearCache symbol st = (inr false, st)).
Proof.
  split.
  - intros Hne st'.
    assert (Hrun : clearCache symbol st
              = (inr true, mkSt (delete symbol (candleCache st))
                             (trace st ++ [LogCleared symbol]))).
    { unfold clearCache. destruct symbol; [done|]. reflexivity. }
    subst st'. rewrite Hrun. cbn [fst snd candleCache].
    split; [done|]. split; [apply lookup_delete_eq|].
    split; [intros other Ho; by apply lookup_delete_ne|].
    intros w accessToken. apply run_miss_trace.
    cbn [candleCache]. by rewrite lookup_delete_eq.
  - intros ->. reflexivity.
Qed.

(** ** C9: what the cache holds *)

Lemma reachable_entries_ok (cache : gmap string CacheEntry) :
  reachable localTZA cache →
  ∀ symbol e, cache !! symbol = Some e → entry_ok e.
Proof.
  induction 1 as [|cache w sym accessToken events _ IH|cache sym events _ IH];
    intros symbol e He.
  - by rewrite lookup_empty in He.
  - destruct (run_cache_cases w sym accessToken (mkSt cache events))
      as [Hsame|(cs & Hlen & _ & Hput)].
    + rewrite Hsame in He. by eapply IH.
    + rewrite Hput in He. cbn [candleCache] in He.
      destruct (decide (sym = symbol)) as [->|Hne].
      * rewrite lookup_insert_eq in He. injection He as <-. by exists cs.
      * rewrite lookup_insert_ne in He by done. by eapply IH.
  - unfold clearCache in He. destruct (truthy_string sym).
    + cbn in He. apply lookup_delete_Some in He as [_ He]. by eapply IH.
    + cbn in He. by eapply IH.
Qed.

(** C9.  In every reachable cache, every entry holds at least 60 candles,
    so its freshness depends on its age alone; the stored [hma] is [null]
    below index 54 and, from index 54 on, the value that
    [calculateHMAFromCandles] computes for that index from the entry's own
    candles. *)
Theorem stored_entries_invariant (cache : gmap string CacheEntry) :
  reachable localTZA cache →
  ∀ symbol e, cache !! symbol = Some e →
    60 ≤ Z.of_nat (length (candles e)) ∧
    (∀ now, fresh (Some e) now = (now - e_lastUpdate e <? 5 * 60 * 1000)) ∧
    ∀ now, ∃ r,
      calculateHMAFromCandles now (map cc_candle (candles e)) = ret r ∧
      ∀ i cc, candles e !! i = Some cc →
        ((i < 54)%nat → cc_hma cc = Null) ∧
        ((54 ≤ i)%nat →
           ∃ p, data r !! i = Some p ∧ cc_hma cc = p_hma p ∧
                p_hma p = Num (Spec.hma (closes_of (map cc_candle (candles e)))
                                 (Z.of_nat i))).
Proof.
  intros Hreach symbol e He.
  destruct (reachable_entries_ok cache Hreach symbol e He) as (cs & Hlen & Hcs).
  assert (H60 : 60 ≤ Z.of_nat (length (candles e))).
  { by rewrite Hcs, length_stored_candles. }
  split; [done|]. split.
  { intros now. unfold fresh, REQUIRED_CANDLES.
    by destruct (Z.leb_spec 60 (Z.of_nat (length (candles e)))) as [_|]; [|lia]. }
  intros now. rewrite Hcs, stored_candles_base.
  eexists. split; [apply calculateHMAFromCandles_ok; lia|].
  intros i cc Hcc. cbn [data].
  rewrite lookup_stored_candles in Hcc.
  destruct (cs !! i) as [c|] eqn:Hc; [|done].
  apply lookup_lt_Some in Hc as Hi. injection Hcc as <-. cbn [cc_hma].
  split.
  - intros Hlo. by destruct (Z.leb_spec 54 (Z.of_nat i)); [lia|].
  - intros Hhi. rewrite lookup_hma_filled, Hc. cbn. eexists. split; [done|].
    cbn [p_hma].
    destruct (Z.leb_spec 54 (Z.of_nat i)); [|lia].
    destruct (Z.ltb_spec (Z.of_nat i) (Z.of_nat (length cs))); [|lia].
    done.
Qed.

(** ** C2: what a cache hit returns *)

(** C2 (amended).  Let a call for [symbol] miss the cache, compute and
    return [r].  Any later call for [symbol] that finds the entry it stored
    less than five minutes after it was written returns, without calling
    the fetch and without touching the cache, a result with the period of
    [r], as many points as [r], the same timestamps and closes, the same
    [hma] from index 54 on, [hma = null] below index 54, the [hma] of the
    last point of [r] as [currentHMA], and the entry's write time as
    [lastUpdate].  The hit is announced on the console only. *)
Theorem cache_hit_after_compute (w1 : World) (symbol : string)
    (token1 : option string) (st : St) (r : HMAResult) (st1 : St) :
  fresh (candleCache st !! symbol) (now_read w1) = false →
  run w1 symbol token1 st = (inr r, st1) →
  ∀ w2 token2 st2,
    candleCache st2 !! symbol = candleCache st1 !! symbol →
    now_read w2 - now_store w1 < 5 * 60 * 1000 →
    ∃ served,
      run w2 symbol token2 st2
      = (inr served, st_log st2 [LogRequest symbol; LogCacheHit symbol]) ∧
      period served = period r ∧
      length (data served) = length (data r) ∧
      (∀ i p, data r !! i = Some p →
         ∃ p', data served !! i = Some p' ∧
           p_timestamp p' = p_timestamp p ∧ p_close p' = p_close p ∧
           p_hma p' = if (i <? 54)%nat then Null else p_hma p) ∧
      (∃ p, last (data r) = Some p ∧ currentHMA served = p_hma p) ∧
      lastUpdate served = now_store w1.
Proof.
  intros Hmiss Hrun w2 token2 st2 Hsame Hnow.
  destruct (run_miss_success w1 symbol token1 st r st1 Hmiss Hrun)
    as (cs & Hlen & -> & Hcache).
  set (e := mkEntry (stored_candles cs) (now_store w1) symbol false).
  assert (He : candleCache st2 !! symbol = Some e).
  { by rewrite Hsame, Hcache, lookup_insert_eq. }
  assert (Hfresh : fresh (Some e) (now_read w2) = true).
  { unfold fresh, REQUIRED_CANDLES. cbn [candles e_lastUpdate e].
    rewrite length_stored_candles. apply andb_true_iff.
    split; [apply Z.leb_le|apply Z.ltb_lt]; lia. }
  destruct (run_hit w2 symbol token2 st2 e He Hfresh) as (lastc & Hlast & Hhit).
  eexists. split; [exact Hhit|].
  cbn [period data currentHMA lastUpdate computed_result candles e_lastUpdate e].
  split; [done|].
  split; [by rewrite length_map, length_stored_candles, length_hma_filled|].
  split; [|split; [|done]].
  - intros i p Hp. rewrite lookup_hma_filled in Hp.
    rewrite list_lookup_fmap, lookup_stored_candles.
    destruct (cs !! i) as [c|] eqn:Hc; [|done].
    apply lookup_lt_Some in Hc as Hi. injection Hp as <-. cbn.
    eexists. split; [done|]. cbn. split; [done|]. split; [done|].
    destruct (Nat.leb_spec i 53), (Z.leb_spec 54 (Z.of_nat i)); try lia; [done|].
    by destruct (Z.ltb_spec (Z.of_nat i) (Z.of_nat (length cs))); [|lia].
  - cbn [candles e] in Hlast. rewrite length_stored_candles in Hlast.
    set (len := Z.of_nat (length cs)) in *.
    unfold at_index in Hlast.
    destruct (Z.ltb_spec (len - 1) 0) as [|_]; [lia|].
    rewrite lookup_stored_candles in Hlast.
    destruct (cs !! Z.to_nat (len - 1)) as [c|] eqn:Hc; [|done].
    injection Hlast as <-. cbn [cc_hma].
    eexists. split.
    { rewrite last_lookup, length_hma_filled, lookup_hma_filled.
      replace (Nat.pred (length cs)) with (Z.to_nat (len - 1)) by lia.
      rewrite Hc. done. }
    cbn [p_hma]. rewrite Z2Nat.id by lia.
    destruct (Z.leb_spec 54 (len - 1)); [|lia].
    by destruct (Z.ltb_spec (len - 1) len); [|lia].
Qed.

End ServiceFacts.

(** ** The theorems at sample inputs *)

Lemma st_nifty_entry :
  candleCache st_nifty !! "NSE:NIFTY50-INDEX" = Some entry_nifty.
Proof. vm_compute. reflexivity. Qed.

Lemma run_nifty :
  fetchAndCalculateHMA IST world_ok "NSE:NIFTY50-INDEX" (Some "token") st_empty
  = (inr result_nifty, st_nifty).
Proof. vm_compute. reflexivity. Qed.

(** On C2 as stated: the result served from the cache is not the result
    of the compute that stored the entry; at index 0 the former has
    [hma = null], the latter [hma = 0]. *)
Lemma cache_hit_differs_from_compute :
  fetchAndCalculateHMA IST world_ok "NSE:NIFTY50-INDEX" (Some "token") st_empty
    = (inr result_nifty, st_nifty) ∧
  fresh (candleCache st_nifty !! "NSE:NIFTY50-INDEX") (now_read world_4m59)
    = true ∧
  fst (fetchAndCalculateHMA IST world_4m59 "NSE:NIFTY50-INDEX" None st_nifty)
    = cached_result entry_nifty ∧
  ∃ served,
    cached_result entry_nifty = ret served ∧
    p_hma <$> data result_nifty !! 0%nat = Some (Num JS.zero) ∧
    p_hma <$> data served !! 0%nat = Some Null ∧
    data served ≠ data result_nifty.
Proof.
  split; [exact run_nifty|].
  split; [vm_compute; reflexivity|]. split; [vm_compute; reflexivity|].
  eexists. split; [vm_compute; reflexivity|].
  split; [vm_compute; reflexivity|]. split; [vm_compute; reflexivity|].
  intros H. apply (f_equal (fun l => p_hma <$> l !! 0%nat)) in H.
  vm_compute in H. discriminate H.
Qed.

Lemma cache_hit_after_compute_witness :
  fresh (candleCache st_empty !! "NSE:NIFTY50-INDEX") (now_read world_ok) = false ∧
  fetchAndCalculateHMA IST world_ok "NSE:NIFTY50-INDEX" (Some "token") st_empty
    = (inr result_nifty, st_nifty) ∧
  ∃ served,
    fetchAndCalculateHMA IST world_4m59 "NSE:NIFTY50-INDEX" None st_nifty
    = (inr served,
       st_log st_nifty [LogRequest "NSE:NIFTY50-INDEX";
                        LogCacheHit "NSE:NIFTY50-INDEX"]) ∧
    period served = period result_nifty ∧
    length (data served) = length (data result_nifty) ∧
    lastUpdate served = now_store world_ok.
Proof.
  split; [reflexivity|]. split; [exact run_nifty|].
  destruct (cache_hit_after_compute IST world_ok "NSE:NIFTY50-INDEX"
              (Some "token") st_empty result_nifty st_nifty)
    with (w2 := world_4m59) (token2 := @None string) (st2 := st_nifty)
    as (served & Hrun & Hp & Hlen & _ & _ & Hu).
  - reflexivity.
  - exact run_nifty.
  - reflexivity.
  - vm_compute. reflexivity.
  - exists served. split; [exact Hrun|]. split; [exact Hp|].
    split; [exact Hlen|exact Hu].
Defined.

Lemma cache_freshness_boundary_witness :
  candleCache st_nifty !! "NSE:NIFTY50-INDEX" = Some entry_nifty ∧
  (∃ r, fetchAndCalculateHMA IST world_4m59 "NSE:NIFTY50-INDEX" None st_nifty
        = (inr r, st_log st_nifty [LogRequest "NSE:NIFTY50-INDEX";
                                   LogCacheHit "NSE:NIFTY50-INDEX"]) ∧
        period r = 55 ∧
        lastUpdate r = e_lastUpdate entry_nifty ∧
        length (data r) = length (candles entry_nifty)) ∧
  (∃ evs, trace (snd (fetchAndCalculateHMA IST world_5m01_ok "NSE:NIFTY50-INDEX"
                        (Some "token") st_nifty))
          = trace st_nifty ++ evs ∧
          one_fetch "NSE:NIFTY50-INDEX" "5" (Some "token") evs) ∧
  fst (fetchAndCalculateHMA IST world_5m01_ok "NSE:NIFTY50-INDEX"
         (Some "token") st_nifty)
  = inr (computed_result (now_compute world_5m01_ok) candles_nifty) ∧
  candleCache (snd (fetchAndCalculateHMA IST world_5m01_ok "NSE:NIFTY50-INDEX"
                      (Some "token") st_nifty))
  = <["NSE:NIFTY50-INDEX" :=
        mkEntry (stored_candles candles_nifty) (now_store world_5m01_ok)
          "NSE:NIFTY50-INDEX" false]> (candleCache st_nifty).
Proof.
  split; [exact st_nifty_entry|]. split.
  - destruct (cache_freshness_boundary IST world_4m59 "NSE:NIFTY50-INDEX" None
                st_nifty entry_nifty st_nifty_entry) as [Hhit _].
    destruct Hhit as (r & _ & Hrun & _ & _ & Hp & Hu & Hl & _).
    + vm_compute. discriminate.
    + vm_compute. reflexivity.
    + exists r. split; [exact Hrun|]. split; [exact Hp|].
      split; [exact Hu|exact Hl].
  - destruct (cache_freshness_boundary IST world_5m01_ok "NSE:NIFTY50-INDEX"
                (Some "token") st_nifty entry_nifty st_nifty_entry)
      as [_ Hmiss].
    destruct Hmiss as (_ & Hev & Hok); [left; vm_compute; discriminate|].
    split; [exact Hev|].
    apply (Hok (session_bars 60)); [reflexivity|vm_compute; discriminate].
Defined.

Lemma clearCache_evicts_witness :
  "NSE:NIFTY50-INDEX" ≠ "" ∧
  fst (clearCache "NSE:NIFTY50-INDEX" st_nifty) = inr true ∧
  candleCache (snd (clearCache "NSE:NIFTY50-INDEX" st_nifty))
    !! "NSE:NIFTY50-INDEX" = None ∧
  clearCache "" st_nifty = (inr false, st_nifty).
Proof.
  assert (Hne : "NSE:NIFTY50-INDEX" ≠ "") by discriminate.
  split; [exact Hne|].
  destruct (clearCache_evicts IST "NSE:NIFTY50-INDEX" st_nifty) as [Hclear _].
  destruct (Hclear Hne) as (Htrue & Hgone & _).
  split; [exact Htrue|]. split; [exact Hgone|].
  destruct (clearCache_evicts IST "" st_nifty) as [_ Hempty].
  exact (Hempty eq_refl).
Defined.

Lemma failed_refresh_leaves_cache_witness :
  history_outcome world_5m01 (Some "token") = inl (NetworkError "offline") ∧
  fresh (candleCache st_nifty !! "NSE:NIFTY50-INDEX") (now_read world_5m01)
    = false ∧
  candleCache (snd (fetchAndCalculateHMA IST world_5m01 "NSE:NIFTY50-INDEX"
                      (Some "token") st_nifty))
    = candleCache st_nifty ∧
  fst (fetchAndCalculateHMA IST world_5m01 "NSE:NIFTY50-INDEX"
         (Some "token") st_nifty)
    = inl (NetworkError "offline").
Proof.
  assert (Hh : history_outcome world_5m01 (Some "token")
               = inl (NetworkError "offline")) by reflexivity.
  assert (Hmiss : fresh (candleCache st_nifty !! "NSE:NIFTY50-INDEX")
                    (now_read world_5m01) = false)
    by (vm_compute; reflexivity).
  split; [exact Hh|]. split; [exact Hmiss|].
  destruct (failed_refresh_leaves_cache IST world_5m01 "NSE:NIFTY50-INDEX"
              (Some "token") st_nifty) as [Hfail _].
  destruct (Hfail _ Hh) as [Hcache Hres].
  split; [exact Hcache|]. destruct (Hres Hmiss) as [Hout _]. exact Hout.
Defined.

Lemma stored_entries_invariant_witness :
  reachable IST (candleCache st_nifty) ∧
  candleCache st_nifty !! "NSE:NIFTY50-INDEX" = Some entry_nifty ∧
  60 ≤ Z.of_nat (length (candles entry_nifty)) ∧
  ∀ now, fresh (Some entry_nifty) now = (now - 1704100000007 <? 5 * 60 * 1000).
Proof.
  assert (Hreach : reachable IST (candleCache st_nifty)).
  { apply (reach_fetch IST ∅ world_ok "NSE:NIFTY50-INDEX" (Some "token") []).
    apply reach_empty. }
  split; [exact Hreach|]. split; [exact st_nifty_entry|].
  destruct (stored_entries_invariant IST (candleCache st_nifty) Hreach
              "NSE:NIFTY50-INDEX" entry_nifty st_nifty_entry)
    as (Hlen & Hfresh & _).
  split; [exact Hlen|exact Hfresh].
Defined.

(** * Further properties of the service *)

(** ** The lookback of the HMA *)

Lemma foldl_ext_in {A B} (F G : A → B → A) (l : list B) (a : A) :
  (∀ x b, b ∈ l → F x b = G x b) → foldl F a l = foldl G a l.
Proof.
  revert a. induction l as [|b l IH]; intros a H; [done|].
  cbn [foldl]. rewrite H by apply list_elem_of_here.
  apply IH. intros x b' Hb'. apply H. by apply list_elem_of_further.
Qed.

Lemma weighted_sum_window (f g : Z → JS.num) (idx n : Z) :
  (∀ k, idx - n < k ≤ idx → f k = g k) →
  Spec.weighted_sum f idx n = Spec.weighted_sum g idx n.
Proof.
  intros Hfg. unfold Spec.weighted_sum. apply foldl_ext_in.
  intros x j Hj. apply elem_of_seqZ in Hj. rewrite Hfg by lia. done.
Qed.

Lemma WMA_window (f g : Z → JS.num) (idx n : Z) :
  (∀ k, idx - n < k ≤ idx → f k = g k) → Spec.WMA f idx n = Spec.WMA g idx n.
Proof. intros H. unfold Spec.WMA. by rewrite (weighted_sum_window f g). Qed.

Lemma rawHMA_window (f g : Z → JS.num) (i : Z) :
  (∀ k, i - 55 < k ≤ i → f k = g k) → Spec.rawHMA f i = Spec.rawHMA g i.
Proof.
  intros H. unfold Spec.rawHMA.
  rewrite (WMA_window f g i 27), (WMA_window f g i 55); [done|..];
    intros k Hk; apply H; lia.
Qed.

Lemma hma_window (f g : Z → JS.num) (i : Z) :
  (∀ k, i - 60 ≤ k ≤ i → f k = g k) → Spec.hma f i = Spec.hma g i.
Proof.
  intros H. unfold Spec.hma, Spec.smoothedHMA.
  destruct (i <? 54); [done|]. destruct (i <? 60).
  - apply rawHMA_window. intros k Hk. apply H. lia.
  - apply WMA_window. intros k Hk. apply rawHMA_window.
    intros k' Hk'. apply H. lia.
Qed.

Lemma lookup_computed_hma (now : Z) (cs : list Candle) (i : Z) :
  54 ≤ i < Z.of_nat (length cs) →
  p_hma <$> at_index (data (computed_result now cs)) i
  = Some (Num (Spec.hma (closes_of cs) i)).
Proof.
  intros Hi. cbn [data computed_result].
  destruct (at_index_Some cs i) as [c Hc]; [lia|].
  unfold at_index in Hc |- *. destruct (Z.ltb_spec i 0) as [|_]; [lia|].
  rewrite lookup_hma_filled, Hc. cbn. rewrite Z2Nat.id by lia.
  destruct (Z.leb_spec 54 i); [|lia].
  by destruct (Z.ltb_spec i (Z.of_nat (length cs))); [|lia].
Qed.

(** X1.  The HMA at index [i >= 54] looks back over 61 candles and at
    nothing but their closes: two candle sequences whose closes agree at
    the indices [i-60 .. i] get the same [hma] at [i], whatever their other
    fields, their lengths and their candles elsewhere. *)
Theorem hma_bounded_lookback (now1 now2 : Z) (cs1 cs2 : list Candle) (i : Z) :
  54 ≤ i < Z.of_nat (length cs1) →
  i < Z.of_nat (length cs2) →
  (∀ k, i - 60 ≤ k ≤ i →
     close <$> at_index cs1 k = close <$> at_index cs2 k) →
  ∃ r1 r2,
    calculateHMAFromCandles now1 cs1 = ret r1 ∧
    calculateHMAFromCandles now2 cs2 = ret r2 ∧
    p_hma <$> at_index (data r1) i = p_hma <$> at_index (data r2) i ∧
    is_Some (at_index (data r1) i).
Proof.
  intros Hi1 Hi2 Hagree.
  exists (computed_result now1 cs1), (computed_result now2 cs2).
  split; [apply calculateHMAFromCandles_ok; lia|].
  split; [apply calculateHMAFromCandles_ok; lia|].
  rewrite !lookup_computed_hma by lia. split.
  - do 2 f_equal. apply hma_window. intros k Hk.
    specialize (Hagree k Hk). unfold closes_of.
    destruct (at_index cs1 k), (at_index cs2 k); cbn in Hagree; congruence.
  - assert (H := lookup_computed_hma now1 cs1 i Hi1).
    destruct (at_index (data (computed_result now1 cs1)) i); [by eexists|done].
Qed.

Lemma hma_bounded_lookback_witness :
  (54 ≤ 57 < Z.of_nat (length (ramp 58))) ∧
  57 < Z.of_nat (length (ramp 70)) ∧
  ∃ r1 r2,
    calculateHMAFromCandles 1 (ramp 58) = ret r1 ∧
    calculateHMAFromCandles 2 (ramp 70) = ret r2 ∧
    p_hma <$> at_index (data r1) 57 = p_hma <$> at_index (data r2) 57 ∧
    is_Some (at_index (data r1) 57).
Proof.
  assert (H1 : 54 ≤ 57 < Z.of_nat (length (ramp 58))) by (vm_compute; split; discriminate || reflexivity).
  assert (H2 : 57 < Z.of_nat (length (ramp 70))) by (vm_compute; reflexivity).
  split; [exact H1|]. split; [exact H2|].
  apply (hma_bounded_lookback 1 2 (ramp 58) (ramp 70) 57 H1 H2).
  intros k Hk.
  assert (Hin : k ∈ seqZ (-3) 61) by (apply elem_of_seqZ; lia).
  clear Hk. revert k Hin. apply Forall_forall.
  repeat (constructor; [vm_compute; reflexivity|]). constructor.
Defined.

(** X2.  Appending candles never changes the points already computed: the
    series of a sequence is the prefix of the series of every extension of
    it. *)
Theorem hma_series_is_prefix_stable (now now' : Z) (cs more : list Candle) :
  55 ≤ Z.of_nat (length cs) →
  ∃ r r',
    calculateHMAFromCandles now cs = ret r ∧
    calculateHMAFromCandles now' (cs ++ more) = ret r' ∧
    data r = take (length cs) (data r').
Proof.
  intros Hlen.
  exists (computed_result now cs), (computed_result now' (cs ++ more)).
  split; [apply calculateHMAFromCandles_ok; lia|].
  split; [apply calculateHMAFromCandles_ok; rewrite length_app; lia|].
  cbn [data computed_result]. apply list_eq. intros i.
  destruct (decide (i < length cs)%nat) as [Hi|Hi].
  - rewrite lookup_take_lt by done. rewrite !lookup_hma_filled.
    rewrite lookup_app_l by done.
    destruct (cs !! i) as [c|] eqn:Hc; [|done]. cbn. do 3 f_equal.
    rewrite length_app.
    destruct (Z.leb_spec 54 (Z.of_nat i)); [|done]. cbn.
    destruct (Z.ltb_spec (Z.of_nat i) (Z.of_nat (length cs))); [|lia].
    destruct (Z.ltb_spec (Z.of_nat i) (Z.of_nat (length cs + length more)));
      [|lia].
    apply hma_window. intros k Hk. unfold closes_of, at_index.
    destruct (Z.ltb_spec k 0); [done|].
    rewrite lookup_app_l by lia. done.
  - rewrite lookup_take_ge by lia.
    apply lookup_ge_None. rewrite length_hma_filled. lia.
Qed.

Lemma hma_series_is_prefix_stable_witness :
  55 ≤ Z.of_nat (length (ramp 56)) ∧
  ∃ r r',
    calculateHMAFromCandles 1 (ramp 56) = ret r ∧
    calculateHMAFromCandles 2 (ramp 56 ++ balanced55) = ret r' ∧
    data r = take (length (ramp 56)) (data r').
Proof.
  assert (H : 55 ≤ Z.of_nat (length (ramp 56))) by (vm_compute; discriminate).
  split; [exact H|].
  exact (hma_series_is_prefix_stable 1 2 (ramp 56) balanced55 H).
Defined.

(** ** Reading past the end of the array *)

Lemma wma_fold_thrown (data : list HMAPoint) (index n : Z) (e : Error)
    (js : list Z) :
  foldl (wma_step data index n) (throw e) js = throw e.
Proof. induction js as [|j js IH]; [done|]. exact IH. Qed.

Lemma wma_loop_past_end (data : list HMAPoint) (index n : Z) :
  1 ≤ n → Z.of_nat (length data) ≤ index →
  wma_loop data index n = throw TypeError.
Proof.
  intros Hn Hidx. unfold wma_loop. rewrite seqZ_cons by lia. cbn [foldl].
  assert (Hm : member data (index - 0) = throw TypeError).
  { unfold member, at_index. destruct (Z.ltb_spec (index - 0) 0); [done|].
    rewrite lookup_ge_None_2 by lia. done. }
  unfold wma_step at 2. cbn [bind ret]. rewrite Hm. cbn [bind throw].
  apply wma_fold_thrown.
Qed.

(** X3.  Both averages test the warm-up before they touch the array:
    below index [period - 1] they return [0] on any array, the empty one
    included; from [period - 1] on, an index at or past the end of the
    array raises a [TypeError], for every period of at least 1. *)
Theorem averages_at_the_bounds (data : list HMAPoint) (index period : Z) :
  (index < period - 1 →
     calculateWMA data index period = ret JS.zero ∧
     calculateHMAForPoint data index period = ret JS.zero)
  ∧ (1 ≤ period → period - 1 ≤ index → Z.of_nat (length data) ≤ index →
     calculateWMA data index period = throw TypeError ∧
     calculateHMAForPoint data index period = throw TypeError).
Proof.
  split.
  - intros Hlt. unfold calculateWMA, calculateHMAForPoint.
    by destruct (Z.ltb_spec index (period - 1)); [|lia].
  - intros Hp Hidx Hend. unfold calculateWMA, calculateHMAForPoint.
    destruct (Z.ltb_spec index (period - 1)); [lia|].
    rewrite (wma_loop_past_end data index period) by lia.
    split; [done|].
    destruct (Z.le_gt_cases 1 (period / 2)) as [Hhalf|Hhalf].
    + by rewrite (wma_loop_past_end data index (period / 2)) by lia.
    + assert (Hnil : seqZ 0 (period / 2) = []) by (apply seqZ_nil; lia).
      unfold wma_loop at 1. rewrite Hnil. done.
Qed.

Lemma averages_at_the_bounds_witness :
  (3 < 55 - 1 ∧
   calculateWMA [] 3 55 = ret JS.zero ∧
   calculateHMAForPoint [] 3 55 = ret JS.zero)
  ∧ (1 ≤ 55 ∧ 55 - 1 ≤ 60 ∧ Z.of_nat (length (map to_point (ramp 60))) ≤ 60 ∧
     calculateWMA (map to_point (ramp 60)) 60 55 = throw TypeError ∧
     calculateHMAForPoint (map to_point (ramp 60)) 60 55 = throw TypeError).
Proof.
  destruct (averages_at_the_bounds [] 3 55) as [Hlow _].
  destruct (averages_at_the_bounds (map to_point (ramp 60)) 60 55) as [_ Hhigh].
  split.
  - split; [reflexivity|]. apply Hlow. reflexivity.
  - split; [discriminate|]. split; [discriminate|].
    split; [vm_compute; discriminate|].
    apply Hhigh; [discriminate|discriminate|vm_compute; discriminate].
Defined.

(** ** More on the normaliser *)

Section NormaliserMore.

Variable localTZA : Z → Z.

Local Abbreviation normalize := (convertAndFilterTradingHoursCandles localTZA).

(** X4.  The normaliser works tuple by tuple: the candles of a
    concatenation are the candles of its parts, one after the other, and
    it never returns more candles than it was given tuples. *)
Theorem normalize_is_piecewise (raw1 raw2 : list Raw) :
  normalize (raw1 ++ raw2) = normalize raw1 ++ normalize raw2
  ∧ (length (normalize raw1) ≤ length raw1)%nat.
Proof.
  split.
  - unfold convertAndFilterTradingHoursCandles.
    by rewrite map_app, List.filter_app.
  - rewrite (normalize_filter localTZA), length_map.
    induction raw1 as [|t raw1 IH]; [done|].
    cbn [List.filter]. destruct (in_sessionb localTZA (r_ts t)); cbn; lia.
Qed.

Lemma timestamps_normalize (raw : list Raw) :
  map timestamp (normalize raw)
  = map r_ts (List.filter (fun t => in_sessionb localTZA (r_ts t)) raw).
Proof. rewrite (normalize_filter localTZA), map_map. done. Qed.

(** X5.  The normaliser does not sort, and does not need to: when the
    timestamps of the input ascend strictly, so do those of the output. *)
Theorem normalize_keeps_ascending (raw : list Raw) :
  StronglySorted Z.lt (map r_ts raw) →
  StronglySorted Z.lt (map timestamp (normalize raw)).
Proof.
  rewrite timestamps_normalize.
  induction raw as [|t raw IH]; intros Hs; [constructor|].
  cbn [map] in Hs. apply StronglySorted_inv in Hs as [Hs Hall].
  cbn [List.filter]. destruct (in_sessionb localTZA (r_ts t)); [|by apply IH].
  cbn [map]. constructor; [by apply IH|].
  apply Forall_forall. intros ts Hts.
  apply list_elem_of_fmap in Hts as (t' & -> & Ht').
  apply list_elem_of_In, filter_In in Ht' as [Ht' _].
  rewrite Forall_forall in Hall. apply Hall.
  apply list_elem_of_fmap. exists t'. split; [done|]. by apply list_elem_of_In.
Qed.

(** X6.  Under a fixed offset from UTC the filter looks at the time of day
    only: a tuple whole days earlier or later (weekends and holidays
    included) is kept exactly when the original is, as long as both
    timestamps are valid dates. *)
Theorem session_filter_ignores_the_day (offset days : Z) (t : Raw) :
  Z.abs (r_ts t * 1000) ≤ maxTimeValue →
  Z.abs ((r_ts t + 86400 * days) * 1000) ≤ maxTimeValue →
  in_trading_hours (convert (fun _ => offset) (shift_days days t))
  = in_trading_hours (convert (fun _ => offset) t).
Proof.
  intros H1 H2. rewrite !in_trading_hours_convert.
  unfold in_sessionb, minuteOfDay, newDate, shift_days. cbn [r_ts].
  destruct (Z.leb_spec (Z.abs (r_ts t * 1000)) maxTimeValue); [|lia].
  destruct (Z.leb_spec (Z.abs ((r_ts t + 86400 * days) * 1000)) maxTimeValue);
    [|lia].
  set (L := r_ts t * 1000 + offset).
  replace ((r_ts t + 86400 * days) * 1000 + offset)
    with (L + (24 * days) * 3600000) by lia.
  rewrite Z.div_add by lia.
  replace (L + 24 * days * 3600000) with (L + (1440 * days) * 60000) by lia.
  rewrite Z.div_add by lia.
  replace (L / 3600000 + 24 * days) with (L / 3600000 + days * 24) by lia.
  replace (L / 60000 + 1440 * days) with (L / 60000 + (24 * days) * 60) by lia.
  by rewrite !Z.mod_add by lia.
Qed.

End NormaliserMore.

Lemma normalize_keeps_ascending_witness :
  StronglySorted Z.lt (map r_ts (session_bars 3)) ∧
  StronglySorted Z.lt
    (map timestamp (convertAndFilterTradingHoursCandles IST (session_bars 3))).
Proof.
  assert (H : StronglySorted Z.lt (map r_ts (session_bars 3))).
  { repeat (constructor; [|repeat (constructor; [reflexivity|]); constructor]).
    constructor. }
  split; [exact H|].
  exact (normalize_keeps_ascending IST (session_bars 3) H).
Defined.

(** A Saturday session bar, 6 January 2024 at 09:15 IST, is five days after
    the first of [session_bars]. *)
Lemma session_filter_ignores_the_day_witness :
  Z.abs (1704080700 * 1000) ≤ maxTimeValue ∧
  Z.abs ((1704080700 + 86400 * 5) * 1000) ≤ maxTimeValue ∧
  in_trading_hours
    (convert (fun _ => 19800000)
       (shift_days 5 (mkRaw 1704080700 JS.zero JS.zero JS.zero JS.zero 0)))
  = in_trading_hours
      (convert (fun _ => 19800000)
         (mkRaw 1704080700 JS.zero JS.zero JS.zero JS.zero 0)).
Proof.
  split; [vm_compute; discriminate|]. split; [vm_compute; discriminate|].
  apply (session_filter_ignores_the_day 19800000 5
           (mkRaw 1704080700 JS.zero JS.zero JS.zero JS.zero 0));
    vm_compute; discriminate.
Defined.

(** ** The history fetch *)

Lemma history_error_kinds (w : World) (accessToken : option string) (e : Error) :
  history_outcome w accessToken = inl e →
  (e = NoAuthToken ∧ falsy accessToken = true)
  ∨ (falsy accessToken = false ∧
     ((∃ reason, e = NetworkError reason) ∨ (∃ message, e = ApiError message))).
Proof.
  unfold history_outcome, fetchHistoricalData, try_catch, and_then, log,
    raise, pure, falsy.
  destruct accessToken as [token|]; [destruct (truthy_string token)|]; cbn.
  - destruct (http w) as [reason|s cs message]; cbn.
    + intros [= <-]. right. split; [done|]. left. by eexists.
    + destruct (String.eqb s "ok"), cs as [cs|];
        try destruct (String.eqb s "no_data"); cbn; try done;
        intros [= <-]; right; (split; [done|]); right; by eexists.
  - intros [= <-]. by left.
  - intros [= <-]. by left.
Qed.

(** X7.  [fetchHistoricalData] sends a request exactly when it is given a
    non-empty access token, and then exactly one, carrying that token, the
    symbol and the resolution; without a token it fails with the
    missing-token error before any request.  It never touches the cache. *)
Theorem history_fetch_needs_token (w : World) (symbol resolution : string)
    (accessToken : option string) (st : St) :
  let out := fetchHistoricalData w symbol resolution accessToken st in
  ∃ evs,
    snd out = st_log st evs ∧
    (falsy accessToken = true →
       fst out = inl NoAuthToken ∧ http_count evs = 0%nat) ∧
    (∀ token, accessToken = Some token → truthy_string token = true →
       http_count evs = 1%nat ∧ HttpGet symbol resolution token ∈ evs ∧
       fst out ≠ inl NoAuthToken).
Proof.
  unfold fetchHistoricalData, try_catch, and_then, log, raise, pure, st_log,
    falsy.
  destruct accessToken as [token|]; [destruct (truthy_string token) eqn:Ht|];
    cbn.
  - destruct (http w) as [reason|s cs message];
      [|destruct (String.eqb s "ok"), cs as [cs|];
        try destruct (String.eqb s "no_data")];
      cbn; eexists; (split; [rewrite <- ?app_assoc; cbn; reflexivity|]);
      (split; [done|]); intros token' [= <-] _;
      (split; [reflexivity|]); (split; [|done]);
      do 2 apply list_elem_of_further; apply list_elem_of_here.
  - eexists. split; [rewrite <- ?app_assoc; cbn; reflexivity|].
    split; [done|]. intros token' [= <-] Ht'. congruence.
  - eexists. split; [rewrite <- ?app_assoc; cbn; reflexivity|].
    split; [done|]. intros token' [=].
Qed.

(** X8.  With a token, the fetch succeeds exactly on an ["ok"] response
    that carries candles, which it returns as they are, and on a
    ["no_data"] response, for which it returns the empty list whatever the
    response carries; a rejected request fails with its own error, and
    every other response (an ["ok"] one without candles included) fails
    with the response's message. *)
Theorem history_fetch_outcomes (w : World) (token : string) :
  truthy_string token = true →
  let outcome := history_outcome w (Some token) in
  (∀ reason, http w = HttpRejected reason →
     outcome = inl (NetworkError reason))
  ∧ (∀ cs message, http w = HttpResponse "ok" (Some cs) message →
     outcome = inr cs)
  ∧ (∀ cs message, http w = HttpResponse "no_data" cs message →
     outcome = inr [])
  ∧ (∀ s cs message, http w = HttpResponse s cs message →
     s ≠ "no_data" → (s = "ok" → cs = None) →
     outcome = inl (ApiError message)).
Proof.
  intros Ht outcome. subst outcome.
  unfold history_outcome, fetchHistoricalData, try_catch, and_then, log,
    raise, pure.
  rewrite Ht. cbn. repeat split.
  - by intros reason ->.
  - by intros cs message ->.
  - intros cs message ->. cbn. by destruct cs.
  - intros s cs message -> Hnd Hok. cbn.
    destruct (String.eqb_spec s "no_data") as [|_]; [done|].
    destruct (String.eqb_spec s "ok") as [Hs|_]; [|done].
    by rewrite (Hok Hs).
Qed.

Lemma history_fetch_outcomes_witness :
  truthy_string "token" = true ∧
  history_outcome world_ok (Some "token") = inr (session_bars 60) ∧
  history_outcome world_5m01 (Some "token") = inl (NetworkError "offline").
Proof.
  split; [reflexivity|].
  destruct (history_fetch_outcomes world_ok "token" eq_refl) as (_ & Hok & _).
  destruct (history_fetch_outcomes world_5m01 "token" eq_refl) as (Hrej & _).
  split; [exact (Hok _ _ eq_refl)|exact (Hrej _ eq_refl)].
Defined.

(** ** Every way a call can go *)

Lemma st_log_log (st : St) (a b : list Event) :
  st_log (st_log st a) b = st_log st (a ++ b).
Proof. unfold st_log. cbn. by rewrite app_assoc. Qed.

Lemma st_put_log (st : St) (symbol : string) (e : CacheEntry) (a b : list Event) :
  st_put (st_log st a) symbol e b = st_put st symbol e (a ++ b).
Proof. unfold st_put, st_log. cbn. by rewrite app_assoc. Qed.

Section ServiceMore.

Variable localTZA : Z → Z.

Local Abbreviation normalize := (convertAndFilterTradingHoursCandles localTZA).
Local Abbreviation run := (fetchAndCalculateHMA localTZA).

(** A call is a hit, a failed refresh or a successful refresh. *)
Lemma run_cases (w : World) (symbol : string) (accessToken : option string)
    (st : St) :
  (∃ e r, candleCache st !! symbol = Some e ∧
      fresh (Some e) (now_read w) = true ∧
      cached_result e = ret r ∧
      run w symbol accessToken st
      = (inr r, st_log st [LogRequest symbol; LogCacheHit symbol]))
  ∨ (fresh (candleCache st !! symbol) (now_read w) = false ∧
     ∃ evs, one_fetch symbol "5" accessToken evs ∧
       ((∃ err, refresh_error localTZA w accessToken symbol err ∧
           run w symbol accessToken st
           = (inl err,
              st_log st ([LogRequest symbol] ++ evs ++ [LogError symbol err])))
        ∨ (∃ raw, history_outcome w accessToken = inr raw ∧
             60 ≤ Z.of_nat (length (normalize raw)) ∧
             run w symbol accessToken st
             = (inr (computed_result (now_compute w) (normalize raw)),
                st_put st symbol
                  (mkEntry (stored_candles (normalize raw)) (now_store w)
                     symbol false)
                  ([LogRequest symbol] ++ evs))))).
Proof.
  destruct (fresh (candleCache st !! symbol) (now_read w)) eqn:Hfresh.
  - left. destruct (candleCache st !! symbol) as [e|] eqn:He; [|done].
    destruct (run_hit localTZA w symbol accessToken st e He Hfresh)
      as (last & Hlast & Hrun).
    exists e. eexists. split; [done|]. split; [done|]. split; [|exact Hrun].
    unfold cached_result, member. by rewrite Hlast.
  - right. split; [done|]. rewrite (run_miss localTZA) by done.
    destruct (history_outcome w accessToken) as [err|raw] eqn:Hh.
    { destruct (fetch_and_compute_fails localTZA w symbol accessToken err Hh)
        as (evs & Hone & ->).
      exists evs. split; [done|]. left. exists err. split; [by left|].
      by rewrite !st_log_log. }
    destruct raw as [|t raw].
    { destruct (fetch_and_compute_empty localTZA w symbol accessToken Hh)
        as (evs & Hone & ->).
      exists evs. split; [done|]. left. eexists.
      split; [right; left; done|]. by rewrite !st_log_log. }
    destruct (Z.lt_ge_cases (Z.of_nat (length (normalize (t :: raw)))) 60)
      as [Hshort|Hlong].
    + destruct (fetch_and_compute_short localTZA w symbol accessToken
                  (t :: raw) Hh) as (evs & Hone & ->); [done|done|].
      exists evs. split; [done|]. left. eexists. split.
      * right; right. exists (t :: raw). done.
      * by rewrite !st_log_log.
    + destruct (fetch_and_compute_succeeds localTZA w symbol accessToken
                  (t :: raw) Hh Hlong) as (evs & Hone & ->).
      exists evs. split; [done|]. right. exists (t :: raw).
      split; [done|]. split; [done|]. by rewrite st_put_log.
Qed.

Lemma refresh_error_kinds (w : World) (accessToken : option string)
    (symbol : string) (err : Error) :
  refresh_error localTZA w accessToken symbol err → service_error symbol err.
Proof.
  intros [Hh|[[_ ->]|(raw & _ & _ & Hlt & ->)]]; cbn; [|done|lia].
  destruct (history_error_kinds w accessToken err Hh)
    as [[-> _]|[_ [[reason ->]|[message ->]]]]; done.
Qed.

(** X9.  For the replies of the broker that a [World] holds (no reply, or
    a response whose candles, when present, are well-formed tuples):
    whenever [fetchAndCalculateHMA] fails, the cache is exactly as it was,
    the error is the last line written, and the error is one of: no token,
    a rejected request, a refused response, no history for the symbol, or
    fewer than 60 candles in session.  (A response with a malformed candle,
    on which the source throws a [TypeError] in the normaliser, is outside
    this statement.) *)
Theorem failure_is_clean (w : World) (symbol : string)
    (accessToken : option string) (st : St) (err : Error) (st' : St) :
  run w symbol accessToken st = (inl err, st') →
  candleCache st' = candleCache st ∧
  service_error symbol err ∧
  last (trace st') = Some (LogError symbol err).
Proof.
  intros Hrun.
  destruct (run_cases w symbol accessToken st)
    as [(e & r & _ & _ & _ & Hhit)
       |(_ & evs & _ & [(err' & Herr & Hfail)|(raw & _ & _ & Hok)])];
    rewrite Hrun in *; [done| |done].
  injection Hfail as -> ->.
  assert (Hkind := refresh_error_kinds w accessToken symbol err' Herr).
  split; [done|]. split; [done|].
  cbn [trace st_log].
  change (last (trace st ++ ((LogRequest symbol :: evs) ++ [LogError symbol err']))
          = Some (LogError symbol err')).
  rewrite app_assoc. apply last_snoc.
Qed.

(** X10.  A call for one symbol never changes the entry of another, and it
    changes the entry of its own symbol only by a successful refresh, which
    is never made while the entry is fresh. *)
Theorem call_touches_own_entry_only (w : World) (symbol : string)
    (accessToken : option string) (st : St) :
  let out := run w symbol accessToken st in
  (∀ other, other ≠ symbol →
     candleCache (snd out) !! other = candleCache st !! other)
  ∧ (candleCache (snd out) !! symbol = candleCache st !! symbol
     ∨ (fresh (candleCache st !! symbol) (now_read w) = false ∧
        ∃ r e, fst out = inr r ∧
               candleCache (snd out) !! symbol = Some e ∧
               e_lastUpdate e = now_store w ∧
               length (candles e) = length (data r))).
Proof.
  intros out. subst out.
  destruct (run_cases w symbol accessToken st)
    as [(e & r & _ & _ & _ & ->)
       |(Hmiss & evs & _ & [(err' & _ & ->)|(raw & _ & _ & ->)])];
    cbn [fst snd candleCache st_log st_put].
  - split; [done|by left].
  - split; [done|by left].
  - split; [intros other Ho; by rewrite lookup_insert_ne|].
    right. split; [done|]. eexists _, _. split; [done|].
    split; [apply lookup_insert_eq|]. split; [done|].
    cbn [candles data computed_result].
    by rewrite length_stored_candles, length_hma_filled.
Qed.

(** X11.  One call makes at most one history fetch and at most one HTTP
    request, and it makes the fetch exactly when the cache does not hold a
    fresh entry for the symbol; the trace only grows. *)
Theorem at_most_one_fetch_per_call (w : World) (symbol : string)
    (accessToken : option string) (st : St) :
  ∃ evs,
    trace (snd (run w symbol accessToken st)) = trace st ++ evs ∧
    (http_count evs ≤ fetch_count evs ≤ 1)%nat ∧
    (fetch_count evs = 0%nat
     ↔ fresh (candleCache st !! symbol) (now_read w) = true).
Proof.
  assert (Hquiet : ∀ pre evs post,
            one_fetch symbol "5" accessToken evs →
            Forall (fun ev => is_fetch ev = false ∧ is_http ev = false) pre →
            Forall (fun ev => is_fetch ev = false ∧ is_http ev = false) post →
            (http_count (pre ++ evs ++ post)
             ≤ fetch_count (pre ++ evs ++ post) ≤ 1)%nat
            ∧ fetch_count (pre ++ evs ++ post) ≠ 0%nat).
  { intros pre evs post Hone Hpre Hpost.
    destruct (one_fetch_wrap _ _ _ pre evs post Hone Hpre Hpost)
      as (Hf & Hh & _). lia. }
  destruct (run_cases w symbol accessToken st)
    as [(e & r & He & Hfresh & _ & ->)
       |(Hmiss & evs & Hone & [(err' & _ & ->)|(raw & _ & _ & ->)])];
    cbn [snd trace st_log st_put].
  - eexists. split; [done|]. rewrite He, Hfresh. cbn. split; [lia|done].
  - eexists. split; [done|]. rewrite Hmiss.
    destruct (Hquiet [LogRequest symbol] evs [LogError symbol err'] Hone)
      as [Hle Hne]; [repeat constructor..|].
    split; [exact Hle|]. split; [done|done].
  - exists ([LogRequest symbol] ++ evs ++ []). rewrite app_nil_r.
    split; [done|]. rewrite Hmiss.
    destruct (Hquiet [LogRequest symbol] evs [] Hone)
      as [Hle Hne]; [repeat constructor..|].
    rewrite app_nil_r in Hle, Hne. split; [exact Hle|]. split; [done|done].
Qed.

End ServiceMore.

Lemma failure_is_clean_witness :
  fetchAndCalculateHMA IST world_5m01 "NSE:NIFTY50-INDEX" (Some "token") st_nifty
  = (inl (NetworkError "offline"),
     snd (fetchAndCalculateHMA IST world_5m01 "NSE:NIFTY50-INDEX"
            (Some "token") st_nifty)) ∧
  candleCache (snd (fetchAndCalculateHMA IST world_5m01 "NSE:NIFTY50-INDEX"
                      (Some "token") st_nifty))
  = candleCache st_nifty.
Proof.
  assert (H : fetchAndCalculateHMA IST world_5m01 "NSE:NIFTY50-INDEX"
                (Some "token") st_nifty
              = (inl (NetworkError "offline"),
                 snd (fetchAndCalculateHMA IST world_5m01 "NSE:NIFTY50-INDEX"
                        (Some "token") st_nifty)))
    by (vm_compute; reflexivity).
  split; [exact H|].
  destruct (failure_is_clean IST _ _ _ _ _ _ H) as [Hc _]. exact Hc.
Defined.

(** ** What a successful call returns and leaves behind *)

Lemma point_closes_stored (cs : list Candle) (z : Z) :
  point_closes (map cached_point (stored_candles cs)) z = closes_of cs z.
Proof.
  unfold point_closes, closes_of, at_index. destruct (z <? 0); [done|].
  rewrite list_lookup_fmap, lookup_stored_candles.
  by destruct (cs !! Z.to_nat z).
Qed.

Lemma stored_points_key (cs : list Candle) :
  map (fun c => (timestamp (cc_candle c), close (cc_candle c))) (stored_candles cs)
  = map (fun p => (p_timestamp p, p_close p))
      (hma_filled cs (Z.of_nat (length cs))).
Proof.
  apply list_eq. intros i.
  rewrite !list_lookup_fmap, lookup_stored_candles, lookup_hma_filled.
  by destruct (cs !! i).
Qed.

Section ServiceResults.

Variable localTZA : Z → Z.

Local Abbreviation normalize := (convertAndFilterTradingHoursCandles localTZA).
Local Abbreviation run := (fetchAndCalculateHMA localTZA).

(** X12.  Every result [fetchAndCalculateHMA] returns, cached or computed,
    has period 55 and at least 60 points, and after the call the cache
    holds an entry for the symbol whose candles carry, one for one, the
    timestamps and closes of the returned points. *)
Theorem success_shape (w : World) (symbol : string)
    (accessToken : option string) (st : St) (r : HMAResult) (st' : St) :
  run w symbol accessToken st = (inr r, st') →
  period r = 55 ∧
  60 ≤ Z.of_nat (length (data r)) ∧
  ∃ e, candleCache st' !! symbol = Some e ∧
       map (fun c => (timestamp (cc_candle c), close (cc_candle c))) (candles e)
       = map (fun p => (p_timestamp p, p_close p)) (data r).
Proof.
  intros Hrun.
  destruct (run_cases localTZA w symbol accessToken st)
    as [(e & r' & He & Hfresh & Hres & Hhit)
       |(_ & evs & _ & [(err' & _ & Hfail)|(raw & _ & Hlen & Hok)])];
    rewrite Hrun in *; [| done |].
  - injection Hhit as -> ->.
    unfold cached_result in Hres.
    destruct (member (candles e) _) as [|last]; [done|].
    injection Hres as <-. cbn [period data].
    split; [done|]. split.
    { rewrite length_map. unfold fresh, REQUIRED_CANDLES in Hfresh.
      apply andb_true_iff in Hfresh as [H _]. lia. }
    exists e. split; [done|]. by rewrite map_map.
  - injection Hok as -> ->. cbn [period data computed_result].
    split; [done|]. split; [by rewrite length_hma_filled|].
    eexists. split; [apply lookup_insert_eq|]. apply stored_points_key.
Qed.

(** X13.  Starting from the cache of a fresh module, whatever calls came
    before: the [currentHMA] of a returned result is a number, never
    [null], and from index 54 on every returned [hma] is the Hull average
    of the closes returned beside it. *)
Theorem served_values_are_consistent (cache : gmap string CacheEntry)
    (w : World) (symbol : string) (accessToken : option string)
    (events : list Event) (r : HMAResult) (st' : St) :
  reachable localTZA cache →
  run w symbol accessToken (mkSt cache events) = (inr r, st') →
  (∃ x, currentHMA r = Num x) ∧
  ∀ i p, data r !! i = Some p → (54 ≤ i)%nat →
    p_hma p = Num (Spec.hma (point_closes (data r)) (Z.of_nat i)).
Proof.
  intros Hreach Hrun.
  destruct (run_cases localTZA w symbol accessToken (mkSt cache events))
    as [(e & r' & He & Hfresh & Hres & Hhit)
       |(_ & evs & _ & [(err' & _ & Hfail)|(raw & _ & Hlen & Hok)])];
    rewrite Hrun in *; [| done |].
  - injection Hhit as -> ->. cbn [candleCache] in He.
    destruct (reachable_entries_ok localTZA cache Hreach symbol e He)
      as (cs & Hcs & Hstored).
    unfold cached_result, member in Hres. rewrite Hstored in Hres.
    rewrite length_stored_candles in Hres.
    set (len := Z.of_nat (length cs)) in *.
    unfold at_index in Hres. destruct (Z.ltb_spec (len - 1) 0); [lia|].
    rewrite lookup_stored_candles in Hres.
    destruct (cs !! Z.to_nat (len - 1)) as [c|]; [|done].
    cbn in Hres. injection Hres as <-. cbn [currentHMA data cc_hma].
    split.
    + rewrite Z2Nat.id by lia. destruct (Z.leb_spec 54 (len - 1)); [|lia].
      by eexists.
    + intros i p Hp Hi.
      rewrite list_lookup_fmap, lookup_stored_candles in Hp.
      destruct (cs !! i) as [ci|]; [|done]. injection Hp as <-. cbn.
      destruct (Z.leb_spec 54 (Z.of_nat i)); [|lia]. f_equal.
      apply hma_ext. intros z. symmetry. apply point_closes_stored.
  - injection Hok as -> ->. cbn [currentHMA data computed_result].
    split.
    + unfold hma_or_zero.
      destruct (at_index _ _) as [[? ? [|v]]|]; try by eexists.
      destruct (JS.truthy v); by eexists.
    + intros i p Hp Hi. rewrite lookup_hma_filled in Hp.
      destruct (normalize raw !! i) as [ci|] eqn:Hci; [|done].
      apply lookup_lt_Some in Hci. injection Hp as <-. cbn.
      destruct (Z.leb_spec 54 (Z.of_nat i)); [|lia].
      destruct (Z.ltb_spec (Z.of_nat i) (Z.of_nat (length (normalize raw))));
        [|lia].
      cbn. f_equal. apply hma_ext. intros z. symmetry.
      apply point_closes_filled.
Qed.

(** X14.  While an entry of at least 60 candles is younger than five
    minutes, any number of calls for its symbol, with any tokens, all
    return the one result built from the entry, leave the cache as it is
    and make no fetch and no request: freshness counts from the write, and
    a hit does not renew it. *)
Theorem reads_within_the_window (calls : list (World * option string))
    (symbol : string) (st : St) (e : CacheEntry) :
  candleCache st !! symbol = Some e →
  60 ≤ Z.of_nat (length (candles e)) →
  Forall (fun call => now_read (fst call) < e_lastUpdate e + 5 * 60 * 1000) calls →
  ∃ r evs,
    cached_result e = ret r ∧
    fst (run_all localTZA calls symbol st) = replicate (length calls) (inr r) ∧
    snd (run_all localTZA calls symbol st) = st_log st evs ∧
    fetch_count evs = 0%nat ∧ http_count evs = 0%nat.
Proof.
  intros He Hlen Hcalls.
  destruct (at_index_Some (candles e) (Z.of_nat (length (candles e)) - 1))
    as [lastc Hlast]; [lia|].
  eexists. 
  assert (Hres : cached_result e
                 = ret (mkResult HMA_PERIOD (map cached_point (candles e))
                          (cc_hma lastc) (e_lastUpdate e))).
  { unfold cached_result, member. by rewrite Hlast. }
  revert st He. induction Hcalls as [|[w tok] calls Hw _ IH]; intros st He.
  - exists []. split; [exact Hres|]. cbn. unfold st_log.
    rewrite app_nil_r. by destruct st.
  - assert (Hfresh : fresh (Some e) (now_read w) = true).
    { unfold fresh, REQUIRED_CANDLES. apply andb_true_iff.
      split; [apply Z.leb_le|apply Z.ltb_lt]; cbn in Hw; lia. }
    destruct (run_hit localTZA w symbol tok st e He Hfresh)
      as (lastc' & Hlast' & Hrun).
    assert (lastc' = lastc) as -> by congruence.
    destruct (IH (st_log st [LogRequest symbol; LogCacheHit symbol]) He)
      as (evs & _ & Hout & Hst & Hf & Hh).
    exists ([LogRequest symbol; LogCacheHit symbol] ++ evs).
    split; [exact Hres|]. cbn [run_all]. rewrite Hrun.
    destruct (run_all localTZA calls symbol _) as [outs st''].
    cbn [fst snd] in *. rewrite Hout, Hst, st_log_log.
    split; [done|]. split; [done|].
    unfold fetch_count, http_count in *. cbn. done.
Qed.

End ServiceResults.

Lemma success_shape_witness :
  fetchAndCalculateHMA IST world_ok "NSE:NIFTY50-INDEX" (Some "token") st_empty
  = (inr result_nifty, st_nifty) ∧
  period result_nifty = 55 ∧
  60 ≤ Z.of_nat (length (data result_nifty)).
Proof.
  split; [exact run_nifty|].
  destruct (success_shape IST _ _ _ _ _ _ run_nifty) as (Hp & Hl & _).
  split; [exact Hp|exact Hl].
Defined.

Lemma served_values_are_consistent_witness :
  reachable IST ∅ ∧
  fetchAndCalculateHMA IST world_ok "NSE:NIFTY50-INDEX" (Some "token") (mkSt ∅ [])
  = (inr result_nifty, st_nifty) ∧
  ∃ x, currentHMA result_nifty = Num x.
Proof.
  split; [apply reach_empty|]. split; [exact run_nifty|].
  destruct (served_values_are_consistent IST ∅ world_ok "NSE:NIFTY50-INDEX"
              (Some "token") [] result_nifty st_nifty (reach_empty IST) run_nifty)
    as [Hcur _].
  exact Hcur.
Defined.

Lemma reads_within_the_window_witness :
  candleCache st_nifty !! "NSE:NIFTY50-INDEX" = Some entry_nifty ∧
  60 ≤ Z.of_nat (length (candles entry_nifty)) ∧
  ∃ r evs,
    cached_result entry_nifty = ret r ∧
    fst (run_all IST [(world_4m59, None); (world_4m59, Some "other")]
           "NSE:NIFTY50-INDEX" st_nifty)
    = [inr r; inr r] ∧
    snd (run_all IST [(world_4m59, None); (world_4m59, Some "other")]
           "NSE:NIFTY50-INDEX" st_nifty)
    = st_log st_nifty evs ∧
    fetch_count evs = 0%nat ∧ http_count evs = 0%nat.
Proof.
  assert (Hlen : 60 ≤ Z.of_nat (length (candles entry_nifty)))
    by (vm_compute; discriminate).
  split; [exact st_nifty_entry|]. split; [exact Hlen|].
  apply (reads_within_the_window IST
           [(world_4m59, None); (world_4m59, Some "other")]
           "NSE:NIFTY50-INDEX" st_nifty entry_nifty st_nifty_entry Hlen).
  repeat (constructor; [vm_compute; reflexivity|]). constructor.
Defined.

(** ** The token, the stored entry and the statistics *)

Section ServiceStore.

Variable localTZA : Z → Z.

Local Abbreviation normalize := (convertAndFilterTradingHoursCandles localTZA).
Local Abbreviation run := (fetchAndCalculateHMA localTZA).

(** X15.  The access token is looked at only when the history is fetched.
    Without a token, a fresh entry is served all the same, and a call that
    has to refresh fails with the missing-token error without sending any
    request and without changing the cache. *)
Theorem token_matters_only_on_refresh (w : World) (symbol : string)
    (accessToken : option string) (st : St) :
  falsy accessToken = true →
  (fresh (candleCache st !! symbol) (now_read w) = true →
     ∃ r, run w symbol accessToken st
          = (inr r, st_log st [LogRequest symbol; LogCacheHit symbol]))
  ∧ (fresh (candleCache st !! symbol) (now_read w) = false →
     run w symbol accessToken st
     = (inl NoAuthToken,
        st_log st [LogRequest symbol; LogRange;
                   FetchHistory symbol "5" accessToken;
                   LogHistoryError symbol NoAuthToken;
                   LogError symbol NoAuthToken])).
Proof.
  intros Htok. split.
  - intros Hfresh. destruct (candleCache st !! symbol) as [e|] eqn:He; [|done].
    destruct (run_hit localTZA w symbol accessToken st e He Hfresh)
      as (last & _ & Hrun). by eexists.
  - intros Hmiss. rewrite (run_miss localTZA) by done.
    unfold fetch_and_compute, fetchHistoricalData, try_catch, and_then, log,
      raise, st_log.
    destruct accessToken as [token|]; cbn in Htok |- *.
    + destruct (truthy_string token); [done|]. cbn.
      by rewrite <- !app_assoc.
    + by rewrite <- !app_assoc.
Qed.

(** X16.  A successful refresh stores what it computed from: the entry of
    the symbol holds exactly the in-session candles of the fetched history,
    in order and with all their fields, stamped with the time of the
    write; the result has one point per stored candle; and the statistics
    then list the symbol with that count and that time. *)
Theorem refresh_stores_the_session_candles (w : World) (symbol : string)
    (accessToken : option string) (st : St) (raw : list Raw) :
  fresh (candleCache st !! symbol) (now_read w) = false →
  history_outcome w accessToken = inr raw →
  60 ≤ Z.of_nat (length (normalize raw)) →
  ∃ r st' e,
    run w symbol accessToken st = (inr r, st') ∧
    candleCache st' !! symbol = Some e ∧
    map cc_candle (candles e) = normalize raw ∧
    e_lastUpdate e = now_store w ∧ e_symbol e = symbol ∧
    isLiveMonitoring e = false ∧
    length (data r) = length (normalize raw) ∧
    ∃ stats, fst (getCacheStats st') = inr stats ∧
      mkStat symbol (Z.of_nat (length (normalize raw))) (now_store w) ∈ stats.
Proof.
  intros Hmiss Hh Hlen.
  destruct (run_cases localTZA w symbol accessToken st)
    as [(e & r' & He & Hfresh & _)
       |(_ & evs & _ & [(err' & Herr & _)|(raw' & Hh' & _ & Hok)])].
  - rewrite He in Hmiss. congruence.
  - exfalso. destruct Herr as [H|[[H _]|(raw' & H & Hne & Hshort & _)]];
      rewrite Hh in H; try done.
    + injection H as ->. cbn in Hlen. lia.
    + injection H as ->. lia.
  - rewrite Hh in Hh'. injection Hh' as <-.
    eexists _, _, _. split; [exact Hok|].
    cbn [candleCache st_put candles e_lastUpdate e_symbol isLiveMonitoring
         data computed_result].
    split; [apply lookup_insert_eq|]. split; [apply stored_candles_base|].
    split; [done|]. split; [done|]. split; [done|].
    split; [apply length_hma_filled|].
    eexists. split; [reflexivity|].
    apply list_elem_of_fmap.
    exists (symbol, mkEntry (stored_candles (normalize raw)) (now_store w)
                      symbol false).
    split.
    + unfold stat_of. cbn. by rewrite length_stored_candles.
    + apply elem_of_map_to_list. apply lookup_insert_eq.
Qed.

End ServiceStore.

Lemma token_matters_only_on_refresh_witness :
  falsy None = true ∧
  (∃ r, fetchAndCalculateHMA IST world_4m59 "NSE:NIFTY50-INDEX" None st_nifty
        = (inr r, st_log st_nifty [LogRequest "NSE:NIFTY50-INDEX";
                                   LogCacheHit "NSE:NIFTY50-INDEX"])) ∧
  fst (fetchAndCalculateHMA IST world_5m01 "NSE:NIFTY50-INDEX" None st_nifty)
  = inl NoAuthToken.
Proof.
  split; [reflexivity|].
  destruct (token_matters_only_on_refresh IST world_4m59 "NSE:NIFTY50-INDEX"
              None st_nifty eq_refl) as [Hhit _].
  destruct (token_matters_only_on_refresh IST world_5m01 "NSE:NIFTY50-INDEX"
              None st_nifty eq_refl) as [_ Hmiss].
  split.
  - apply Hhit. vm_compute. reflexivity.
  - rewrite Hmiss; [reflexivity|]. vm_compute. reflexivity.
Defined.

Lemma refresh_stores_the_session_candles_witness :
  fresh (candleCache st_empty !! "NSE:NIFTY50-INDEX") (now_read world_ok) = false ∧
  history_outcome world_ok (Some "token") = inr (session_bars 60) ∧
  60 ≤ Z.of_nat (length (convertAndFilterTradingHoursCandles IST (session_bars 60))) ∧
  ∃ r st' e,
    fetchAndCalculateHMA IST world_ok "NSE:NIFTY50-INDEX" (Some "token") st_empty
    = (inr r, st') ∧
    candleCache st' !! "NSE:NIFTY50-INDEX" = Some e ∧
    e_lastUpdate e = now_store world_ok.
Proof.
  assert (H60 : 60 ≤ Z.of_nat (length (convertAndFilterTradingHoursCandles IST
                                         (session_bars 60))))
    by (vm_compute; discriminate).
  split; [reflexivity|]. split; [reflexivity|]. split; [exact H60|].
  destruct (refresh_stores_the_session_candles IST world_ok "NSE:NIFTY50-INDEX"
              (Some "token") st_empty (session_bars 60) eq_refl eq_refl H60)
    as (r & st' & e & Hrun & He & _ & Hu & _).
  exists r, st', e. split; [exact Hrun|]. split; [exact He|exact Hu].
Defined.

(** ** Statistics and eviction *)

(** X17.  [getCacheStats] changes nothing and lists each cached symbol
    exactly once, with the number of its candles and the time of its
    write; the statistics route answers 200 with that list, with or
    without credentials. *)
Theorem stats_list_each_entry_once (st : St) :
  ∃ stats,
    getCacheStats st = (inr stats, st) ∧
    (∀ s, s ∈ stats ↔
       ∃ e, candleCache st !! stat_symbol s = Some e ∧
            candleCount s = Z.of_nat (length (candles e)) ∧
            stat_lastUpdate s = e_lastUpdate e) ∧
    NoDup (stat_symbol <$> stats) ∧
    length stats = size (candleCache st) ∧
    hma_cache_stats_route st = (mkResponse 200 (Stats stats), st, []).
Proof.
  eexists. split; [reflexivity|]. split; [|split; [|split]].
  - intros s. rewrite list_elem_of_fmap. split.
    + intros ([k e] & -> & Hin). apply elem_of_map_to_list in Hin.
      exists e. cbn. done.
    + intros (e & He & Hc & Hu). exists (stat_symbol s, e). split.
      * destruct s. unfold stat_of. cbn in *. by rewrite Hc, Hu.
      * by apply elem_of_map_to_list.
  - rewrite <- list_fmap_compose.
    apply (NoDup_fst_map_to_list (candleCache st)).
  - by rewrite length_fmap, length_map_to_list.
  - reflexivity.
Qed.

(** X18.  Eviction is idempotent and order does not matter: evicting a
    symbol twice leaves the cache that evicting it once leaves (and
    answers [true] both times), evicting two symbols in either order
    leaves the same cache, and afterwards the statistics list no record
    for an evicted symbol. *)
Theorem evictions_compose (a b : string) (st : St) :
  a ≠ "" → b ≠ "" →
  let st_a := snd (clearCache a st) in
  let st_ab := snd (clearCache b st_a) in
  let st_ba := snd (clearCache a (snd (clearCache b st))) in
  candleCache (snd (clearCache a st_a)) = candleCache st_a ∧
  fst (clearCache a st_a) = inr true ∧
  candleCache st_ab = candleCache st_ba ∧
  ∀ stats s, fst (getCacheStats st_ab) = inr stats → s ∈ stats →
    stat_symbol s ≠ a ∧ stat_symbol s ≠ b.
Proof.
  intros Ha Hb.
  assert (Hclear : ∀ x st0, x ≠ "" →
            clearCache x st0
            = (inr true, mkSt (delete x (candleCache st0))
                           (trace st0 ++ [LogCleared x]))).
  { intros x st0 Hx. unfold clearCache. destruct x; [done|]. reflexivity. }
  cbn zeta. repeat (rewrite !Hclear by done; cbn [fst snd candleCache]).
  split; [apply delete_delete_eq|]. split; [done|].
  split; [apply delete_delete|].
  intros stats s [= <-] Hs. apply list_elem_of_fmap in Hs as ([k e] & -> & Hin).
  apply elem_of_map_to_list in Hin. cbn.
  split; intros ->.
  - rewrite lookup_delete_ne, lookup_delete_eq in Hin; [done|].
    intros ->. by rewrite lookup_delete_eq in Hin.
  - by rewrite lookup_delete_eq in Hin.
Qed.

Lemma evictions_compose_witness :
  "NSE:NIFTY50-INDEX" ≠ "" ∧ "NSE:BANKNIFTY" ≠ "" ∧
  candleCache (snd (clearCache "NSE:BANKNIFTY"
                      (snd (clearCache "NSE:NIFTY50-INDEX" st_nifty))))
  = candleCache (snd (clearCache "NSE:NIFTY50-INDEX"
                        (snd (clearCache "NSE:BANKNIFTY" st_nifty)))).
Proof.
  assert (Ha : "NSE:NIFTY50-INDEX" ≠ "") by discriminate.
  assert (Hb : "NSE:BANKNIFTY" ≠ "") by discriminate.
  split; [exact Ha|]. split; [exact Hb|].
  destruct (evictions_compose "NSE:NIFTY50-INDEX" "NSE:BANKNIFTY" st_nifty Ha Hb)
    as (_ & _ & Hcomm & _).
  exact Hcomm.
Defined.

(** ** The date format of the history request *)

Lemma range_forallb (P : Z → bool) (lo n : Z) :
  forallb P (seqZ lo n) = true → ∀ z, lo ≤ z < lo + n → P z = true.
Proof.
  intros H z Hz. rewrite forallb_forall in H. apply H.
  apply list_elem_of_In, elem_of_seqZ. lia.
Qed.

Lemma length_append (s1 s2 : string) :
  String.length (s1 +:+ s2) = (String.length s1 + String.length s2)%nat.
Proof.
  induction s1 as [|c s1 IH]; [done|].
  change (S (String.length (s1 +:+ s2))
          = S (String.length s1 + String.length s2)).
  by rewrite IH.
Qed.

Lemma append_inj_length (s1 s2 t1 t2 : string) :
  String.length s1 = String.length s2 →
  s1 +:+ t1 = s2 +:+ t2 → s1 = s2 ∧ t1 = t2.
Proof.
  revert s2. induction s1 as [|c s1 IH]; intros [|c' s2] Hlen Heq;
    try discriminate Hlen.
  - done.
  - change (String c (s1 +:+ t1) = String c' (s2 +:+ t2)) in Heq.
    injection Heq as -> Heq. injection Hlen as Hlen.
    destruct (IH s2 Hlen Heq) as [-> ->]. done.
Qed.

Lemma get_append_skip (s1 s2 : string) (k n : nat) :
  String.length s1 = k → String.get (k + n) (s1 +:+ s2) = String.get n s2.
Proof. intros <-. rewrite Nat.add_comm. symmetry. apply Stdlib.Strings.String.append_correct2. Qed.

Lemma padStart2_length (z : Z) :
  0 ≤ z < 100 → String.length (padStart2 (pretty z)) = 2%nat.
Proof.
  intros Hz. apply Nat.eqb_eq.
  apply (range_forallb
           (fun z => Nat.eqb (String.length (padStart2 (pretty z))) 2) 0 100);
    [vm_compute; reflexivity|lia].
Qed.

Lemma padStart2_inj (a b : Z) :
  0 ≤ a < 100 → 0 ≤ b < 100 →
  padStart2 (pretty a) = padStart2 (pretty b) → a = b.
Proof.
  intros Ha Hb Heq.
  assert (H := range_forallb
           (fun a => forallb
              (fun b => implb (String.eqb (padStart2 (pretty a))
                                          (padStart2 (pretty b)))
                              (a =? b))
              (seqZ 0 100)) 0 100).
  specialize (H ltac:(vm_compute; reflexivity) a ltac:(lia)).
  apply (range_forallb _ 0 100) with (z := b) in H; [|lia].
  rewrite Heq, String.eqb_refl in H. cbn in H. by apply Z.eqb_eq.
Qed.

Lemma year_length (y : Z) :
  1000 ≤ y ≤ 9999 → String.length (pretty y) = 4%nat.
Proof.
  intros Hy. apply Nat.eqb_eq.
  apply (range_forallb (fun y => Nat.eqb (String.length (pretty y)) 4) 1000 9000);
    [vm_compute; reflexivity|lia].
Qed.

(** X19.  For a date whose year has four digits, [formatDateForAPI]
    returns 19 characters, with ["-"] at positions 4 and 7, a blank at 10
    and [":"] at 13 and 16: one-digit months, days, hours, minutes and
    seconds are padded to two. *)
Theorem date_format_shape (d : DateParts) :
  calendar_parts d →
  String.length (formatDateForAPI d) = 19%nat ∧
  String.get 4 (formatDateForAPI d) = Some "-"%char ∧
  String.get 7 (formatDateForAPI d) = Some "-"%char ∧
  String.get 10 (formatDateForAPI d) = Some " "%char ∧
  String.get 13 (formatDateForAPI d) = Some ":"%char ∧
  String.get 16 (formatDateForAPI d) = Some ":"%char.
Proof.
  intros (Hy & Hm & Hd & Hh & Hmi & Hs). unfold formatDateForAPI. cbn zeta.
  assert (Ly := year_length _ Hy).
  assert (Lm := padStart2_length (d_getMonth d + 1) ltac:(lia)).
  assert (Ld := padStart2_length (d_getDate d) ltac:(lia)).
  assert (Lh := padStart2_length (d_getHours d) ltac:(lia)).
  assert (Lmi := padStart2_length (d_getMinutes d) ltac:(lia)).
  assert (Ls := padStart2_length (d_getSeconds d) ltac:(lia)).
  split.
  { rewrite !length_append, Ly, Lm, Ld, Lh, Lmi, Ls. reflexivity. }
  repeat split.
  - rewrite (get_append_skip _ _ 4 0 Ly). reflexivity.
  - rewrite (get_append_skip _ _ 4 3 Ly), (get_append_skip "-" _ 1 2 eq_refl),
      (get_append_skip _ _ 2 0 Lm). reflexivity.
  - rewrite (get_append_skip _ _ 4 6 Ly), (get_append_skip "-" _ 1 5 eq_refl),
      (get_append_skip _ _ 2 3 Lm), (get_append_skip "-" _ 1 2 eq_refl),
      (get_append_skip _ _ 2 0 Ld). reflexivity.
  - rewrite (get_append_skip _ _ 4 9 Ly), (get_append_skip "-" _ 1 8 eq_refl),
      (get_append_skip _ _ 2 6 Lm), (get_append_skip "-" _ 1 5 eq_refl),
      (get_append_skip _ _ 2 3 Ld), (get_append_skip " " _ 1 2 eq_refl),
      (get_append_skip _ _ 2 0 Lh). reflexivity.
  - rewrite (get_append_skip _ _ 4 12 Ly), (get_append_skip "-" _ 1 11 eq_refl),
      (get_append_skip _ _ 2 9 Lm), (get_append_skip "-" _ 1 8 eq_refl),
      (get_append_skip _ _ 2 6 Ld), (get_append_skip " " _ 1 5 eq_refl),
      (get_append_skip _ _ 2 3 Lh), (get_append_skip ":" _ 1 2 eq_refl),
      (get_append_skip _ _ 2 0 Lmi). reflexivity.
Qed.

Lemma date_format_shape_witness :
  calendar_parts march_5 ∧
  formatDateForAPI march_5 = "2024-03-05 09:07:03" ∧
  String.length (formatDateForAPI march_5) = 19%nat.
Proof.
  assert (H : calendar_parts march_5) by (vm_compute; intuition discriminate).
  split; [exact H|]. split; [vm_compute; reflexivity|].
  destruct (date_format_shape march_5 H) as [Hlen _]. exact Hlen.
Defined.

(** X20.  The format loses nothing: two dates with four-digit years that
    differ in the year, month, day, hour, minute or second are formatted
    differently. *)
Theorem date_format_is_injective (d1 d2 : DateParts) :
  calendar_parts d1 → calendar_parts d2 →
  formatDateForAPI d1 = formatDateForAPI d2 → d1 = d2.
Proof.
  intros (Hy1 & Hm1 & Hd1 & Hh1 & Hmi1 & Hs1)
         (Hy2 & Hm2 & Hd2 & Hh2 & Hmi2 & Hs2).
  unfold formatDateForAPI. cbn zeta. intros Heq.
  apply append_inj_length in Heq as [Ey Heq];
    [|by rewrite !year_length].
  apply (append_inj_length "-" "-") in Heq as [_ Heq]; [|done].
  apply append_inj_length in Heq as [Em Heq];
    [|rewrite !padStart2_length; [done|lia..]].
  apply (append_inj_length "-" "-") in Heq as [_ Heq]; [|done].
  apply append_inj_length in Heq as [Ed Heq];
    [|rewrite !padStart2_length; [done|lia..]].
  apply (append_inj_length " " " ") in Heq as [_ Heq]; [|done].
  apply append_inj_length in Heq as [Eh Heq];
    [|rewrite !padStart2_length; [done|lia..]].
  apply (append_inj_length ":" ":") in Heq as [_ Heq]; [|done].
  apply append_inj_length in Heq as [Emi Heq];
    [|rewrite !padStart2_length; [done|lia..]].
  apply (append_inj_length ":" ":") in Heq as [_ Es]; [|done].
  apply (inj pretty) in Ey.
  apply padStart2_inj in Em; [|lia..].
  apply padStart2_inj in Ed; [|lia..].
  apply padStart2_inj in Eh; [|lia..].
  apply padStart2_inj in Emi; [|lia..].
  apply padStart2_inj in Es; [|lia..].
  destruct d1, d2. cbn in *. f_equal; lia.
Qed.

Lemma date_format_is_injective_witness :
  calendar_parts march_5 ∧
  (formatDateForAPI march_5 = formatDateForAPI march_5 → march_5 = march_5).
Proof.
  assert (H : calendar_parts march_5) by (vm_compute; intuition discriminate).
  split; [exact H|]. exact (date_format_is_injective march_5 march_5 H H).
Defined.

(** ** The routes *)

Lemma falsy_truthy (s : string) : falsy (Some s) = negb (truthy_string s).
Proof. reflexivity. Qed.

Section RouteFacts.

Variable localTZA : Z → Z.

Lemma run_failure_inv (w : World) (symbol : string)
    (accessToken : option string) (st : St) (err : Error) (st' : St) :
  fetchAndCalculateHMA localTZA w symbol accessToken st = (inl err, st') →
  candleCache st' = candleCache st ∧
  refresh_error localTZA w accessToken symbol err.
Proof.
  intros Hrun.
  destruct (run_cases localTZA w symbol accessToken st)
    as [(e & r & _ & _ & _ & Hhit)
       |(_ & evs & _ & [(err' & Herr & Hfail)|(raw & _ & _ & Hok)])];
    rewrite Hrun in *; [done| |done].
  by injection Hfail as -> ->.
Qed.

Lemma run_success_inv (w : World) (symbol : string)
    (accessToken : option string) (st : St) (r : HMAResult) (st' : St) :
  fetchAndCalculateHMA localTZA w symbol accessToken st = (inr r, st') →
  period r = 55 ∧ 60 ≤ Z.of_nat (length (data r)).
Proof.
  intros Hrun.
  destruct (run_cases localTZA w symbol accessToken st)
    as [(e & r' & He & Hfresh & Hres & Hhit)
       |(_ & evs & _ & [(err' & _ & Hfail)|(raw & _ & Hlen & Hok)])];
    rewrite Hrun in *; [| done |].
  - injection Hhit as -> ->. unfold cached_result in Hres.
    destruct (member (candles e) _) as [|last]; [done|].
    injection Hres as <-. cbn [period data]. split; [done|].
    rewrite length_map. unfold fresh, REQUIRED_CANDLES in Hfresh.
    apply andb_true_iff in Hfresh as [H _]. lia.
  - injection Hok as -> ->. cbn [period data computed_result].
    split; [done|]. by rewrite length_hma_filled.
Qed.

(** X21.  [GET /api/hma-calc] answers 401 without an [Authorization]
    header and 400 without a symbol, in both cases before the service is
    called: nothing is logged and the state is untouched.  Otherwise it
    answers 200 with a result of period 55 and at least 60 points, or 500
    with the service's error, and then the cache is as it was; the
    missing-token error of the fetch cannot come out of this route. *)
Theorem hma_calc_route_answers (w : World) (req : Request) (st : St) :
  let out := hma_calc_route localTZA w req st in
  let resp := fst (fst out) in
  let st' := snd (fst out) in
  (falsy (authorization req) = true →
     out = (mkResponse 401 (ErrorMessage "Authentication token is required"),
            st, []))
  ∧ (falsy (authorization req) = false → falsy (symbol_param req) = true →
     out = (mkResponse 400 (ErrorMessage "Symbol parameter is required"),
            st, []))
  ∧ (falsy (authorization req) = false → falsy (symbol_param req) = false →
     (∃ r, resp = mkResponse 200 (HmaData r) ∧
           period r = 55 ∧ 60 ≤ Z.of_nat (length (data r)) ∧ snd out = [])
     ∨ (∃ err, resp = mkResponse 500 (ErrorOf err "Failed to calculate HMA") ∧
               snd out = [HmaCalculationError err] ∧
               err ≠ NoAuthToken ∧
               candleCache st' = candleCache st)).
Proof.
  intros out resp st'. subst out resp st'.
  unfold hma_calc_route, authenticate.
  destruct (authorization req) as [token|]; cbn [falsy];
    [destruct (truthy_string token) eqn:Ht; cbn [negb]|];
    [|by repeat split..].
  split; [done|].
  destruct (symbol_param req) as [symbol|]; cbn [falsy];
    [destruct (truthy_string symbol) eqn:Hs; cbn [negb]|];
    [|by repeat split..].
  split; [done|]. intros _ _.
  destruct (fetchAndCalculateHMA localTZA w symbol (Some token) st)
    as [[err|r] st1] eqn:Hrun; cbn [fst snd].
  - right. exists err.
    destruct (run_failure_inv w symbol (Some token) st err st1 Hrun)
      as [Hcache Herr].
    assert (Hkind := refresh_error_kinds localTZA w (Some token) symbol err Herr).
    split; [done|]. split; [done|]. split; [|done].
    intros ->.
    destruct Herr as [Hh|[[_ [=]]|(raw & _ & _ & _ & [=])]].
    destruct (history_error_kinds w (Some token) NoAuthToken Hh)
      as [[_ Hf]|[_ [[reason [=]]|[message [=]]]]].
    rewrite falsy_truthy, Ht in Hf. done.
  - left. exists r.
    destruct (run_success_inv w symbol (Some token) st r st1 Hrun) as [Hp Hl].
    done.
Qed.

End RouteFacts.

(** X22.  [POST /api/hma-cache/clear] answers 401 without an
    [Authorization] header, 400 without a symbol, and otherwise 200 with
    [success: true] after removing the entry of the symbol and of no
    other; it never answers [success: false]. *)
Theorem hma_cache_clear_route_answers (req : Request) (st : St) :
  let out := hma_cache_clear_route req st in
  let resp := fst (fst out) in
  let st' := snd (fst out) in
  snd out = [] ∧
  body resp ≠ Success false ∧
  (falsy (authorization req) = true →
     resp = mkResponse 401 (ErrorMessage "Authentication token is required") ∧
     st' = st)
  ∧ (falsy (authorization req) = false → falsy (symbol_param req) = true →
     resp = mkResponse 400 (ErrorMessage "Symbol parameter is required") ∧
     st' = st)
  ∧ (falsy (authorization req) = false →
     ∀ symbol, symbol_param req = Some symbol → symbol ≠ "" →
       resp = mkResponse 200 (Success true) ∧
       candleCache st' = delete symbol (candleCache st)).
Proof.
  intros out resp st'. subst out resp st'.
  unfold hma_cache_clear_route, authenticate.
  destruct (authorization req) as [token|]; cbn [falsy];
    [destruct (truthy_string token) eqn:Ht; cbn [negb]|];
    [|by repeat split..].
  destruct (symbol_param req) as [symbol|]; cbn [falsy];
    [destruct (truthy_string symbol) eqn:Hs; cbn [negb]|].
  - unfold clearCache. rewrite Hs. cbn.
    split; [done|]. split; [done|]. split; [done|]. split; [done|].
    by intros _ s [= <-] _.
  - split; [done|]. split; [done|]. split; [done|]. split; [done|].
    intros _ s [= <-] Hne. destruct symbol; done.
  - split; [done|]. split; [done|]. split; [done|]. split; [done|].
    by intros _ s [=].
Qed.

(** ** What the cache holds, continued *)



